(** * Items service: a FastAPI CRUD backend over one MongoDB collection

    Shallow embedding of [src/backend/src/api]:
    - [models.py]: [object_id_from_str] and the pydantic models
      [ItemBase], [ItemCreate], [ItemUpdate], [ItemOut];
    - [db.py]: the connection holder [MongoDB] ([client], [db], [init],
      [close]);
    - [routes/items.py]: the handlers [create_item], [list_items],
      [get_item], [update_item], [delete_item] and [_item_doc_to_out].

    The MongoDB driver (bson, PyMongo, Motor), pydantic and FastAPI are not
    part of the repository.  They are modelled by the behaviour the handlers
    rely on: the [items] collection is a finite map from [_id] to the other
    fields of the document (MongoDB keeps [_id] unique), a document is
    kept as BSON encodes it (a datetime as whole milliseconds, read back
    naive), the order of documents that a sort leaves tied is arbitrary,
    and every driver call is recorded in a ghost log so that "no database
    operation" can be stated. *)

From Stdlib Require Import ZArith NArith Ascii String List.
From Stdlib.Strings Require Byte.
From stdpp Require Import base option gmap strings list sorting.

Local Open Scope string_scope.
Local Open Scope list_scope.
Local Open Scope Z_scope.

(** ** Python exceptions and results *)

Inductive exception :=
| ValueError (msg : string)
| RuntimeError (msg : string)
| HTTPException (status_code : Z) (detail : string)
| ValidationError          (* pydantic: a field violates its constraints *)
| RequestValidationError   (* FastAPI: the request body fails its schema *)
| DuplicateKeyError        (* pymongo: the unique index on [_id] is violated *)
| InvalidURI               (* pymongo: the connection string is refused *)
| InvalidName.             (* pymongo: the database name is refused *)

Inductive outcome (A : Type) :=
| Return (a : A)
| Raise (e : exception).
Arguments Return {A} a.
Arguments Raise {A} e.

(** ** bson.ObjectId *)

Abbreviation byte := Byte.byte.

#[global] Instance byte_eq_dec : EqDecision byte := Byte.byte_eq_dec.
#[global] Program Instance byte_countable : Countable byte :=
  inj_countable Byte.to_N Byte.of_N Byte.of_to_N.

(** An ObjectId is the byte string it wraps (12 bytes when the driver
    generates it). *)
Definition ObjectId := list byte.

(** CPython's [_PyLong_DigitValue] restricted to base 16. *)
Definition hex_digit_value (c : ascii) : option N :=
  let n := N_of_ascii c in
  if ((48 <=? n) && (n <=? 57))%N then Some (n - 48)%N
  else if ((97 <=? n) && (n <=? 102))%N then Some (n - 87)%N
  else if ((65 <=? n) && (n <=? 70))%N then Some (n - 55)%N
  else None.

(** CPython's [Py_ISSPACE]: tab, LF, VT, FF, CR and space. *)
Definition Py_ISSPACE (c : ascii) : bool :=
  let n := N_of_ascii c in
  (((9 <=? n) && (n <=? 13)) || (n =? 32))%N.

(** [bytes.fromhex]: pairs of hex digits, ASCII whitespace skipped between
    the pairs; [None] stands for the ValueError. *)
Fixpoint bytes_fromhex (s : string) : option (list byte) :=
  match s with
  | EmptyString => Some []
  | String c s' =>
      if Py_ISSPACE c then bytes_fromhex s'
      else
        match hex_digit_value c, s' with
        | Some top, String c' s'' =>
            match hex_digit_value c' with
            | Some bot =>
                match Byte.of_N (16 * top + bot), bytes_fromhex s'' with
                | Some b, Some bs => Some (b :: bs)
                | _, _ => None
                end
            | None => None
            end
        | _, _ => None
        end
  end.

(** [ObjectId(value)] for a [str]: the string must have 24 characters and
    [bytes.fromhex] must accept it; [None] stands for bson's InvalidId. *)
Definition ObjectId_init (oid : string) : option ObjectId :=
  if decide (String.length oid = 24%nat) then bytes_fromhex oid else None.

Definition hex_char (n : N) : ascii :=
  if (n <? 10)%N then ascii_of_N (48 + n) else ascii_of_N (87 + n).

(** [binascii.hexlify]: two lower-case hex digits per byte. *)
Fixpoint hexlify (bs : list byte) : string :=
  match bs with
  | [] => EmptyString
  | b :: bs' =>
      String (hex_char (Byte.to_N b / 16))
        (String (hex_char (Byte.to_N b mod 16)) (hexlify bs'))
  end.

(** [str(oid)]. *)
Definition ObjectId_str (oid : ObjectId) : string := hexlify oid.

(** models.py, [object_id_from_str]: any exception of the constructor
    becomes a ValueError. *)
Definition object_id_from_str (value : string) : outcome ObjectId :=
  match ObjectId_init value with
  | Some oid => Return oid
  | None => Raise (ValueError "Invalid ObjectId")
  end.

#[global] Instance outcome_ret : MRet outcome := @Return.
#[global] Instance outcome_bind : MBind outcome := λ A B k r,
  match r with
  | Return a => k a
  | Raise e => Raise e
  end.
#[global] Instance outcome_fmap : FMap outcome := λ A B f r,
  match r with
  | Return a => Return (f a)
  | Raise e => Raise e
  end.

(** ** models.py: the pydantic models *)

(** [datetime]: the instant, in microseconds since the epoch (UTC), and
    the [tzinfo] of the object: [Some utc] for an aware datetime, [None]
    for a naive one (which the driver means as UTC). *)
Inductive timezone := utc.

Record datetime := Datetime {
  timestamp : Z;
  tzinfo : option timezone
}.

(** [datetime.now(timezone.utc)] when the clock reads [now] microseconds. *)
Definition datetime_now_utc (now : Z) : datetime := Datetime now (Some utc).

(** [ItemBase] (and [ItemCreate], which adds nothing to it). *)
Module ItemBase.
Record t := mk { name : string; description : option string }.
End ItemBase.
Abbreviation ItemCreate := ItemBase.t.

Module ItemUpdate.
Record t := mk { name : option string; description : option string }.
End ItemUpdate.

Module ItemOut.
Record t := mk {
  id : string;
  name : string;
  description : option string;
  created_at : datetime
}.
End ItemOut.

(** JSON values of a request body, as far as the two string fields can
    tell them apart: null, a string, or an array or object (which no
    string field accepts). *)
Inductive json :=
| JNull
| JString (s : string)
| JCompound.

(** A field annotated [str] with [min_length]. *)
Definition validate_str (min_length : nat) (v : option json) : outcome string :=
  match v with
  | Some (JString s) =>
      if (String.length s <? min_length)%nat then Raise ValidationError
      else Return s
  | _ => Raise ValidationError
  end.

(** A field annotated [Optional[str]] with [default=None]. *)
Definition validate_optional_str (v : option json) : outcome (option string) :=
  match v with
  | None | Some JNull => Return None
  | Some (JString s) => Return (Some s)
  | Some JCompound => Raise ValidationError
  end.

(** [ItemCreate] built from a request body: [name] is required, with
    [min_length=1]. *)
Definition ItemCreate_validate (body : gmap string json) : outcome ItemCreate :=
  name ← validate_str 1 (body !! "name");
  description ← validate_optional_str (body !! "description");
  Return (ItemBase.mk name description).

(** [ItemUpdate] built from a request body: both fields are
    [Optional[str]] and carry no [min_length]. *)
Definition ItemUpdate_validate (body : gmap string json) : outcome ItemUpdate.t :=
  name ← validate_optional_str (body !! "name");
  description ← validate_optional_str (body !! "description");
  Return (ItemUpdate.mk name description).

(** [ItemOut(id=..., name=..., description=..., created_at=...)]: the
    constructor validates [name] against [min_length=1] of [ItemBase]. *)
Definition ItemOut_init (id name : string) (description : option string)
    (created_at : datetime) : outcome ItemOut.t :=
  if (String.length name <? 1)%nat then Raise ValidationError
  else Return (ItemOut.mk id name description created_at).

(** ** The [items] collection *)

(** A document of [items] without its [_id]: the dict [create_item] builds. *)
Module Doc.
Record t := mk {
  name : string;
  description : option string;
  created_at : datetime
}.
End Doc.

(** A document as the driver returns it: [_id] and the other fields. *)
Definition document : Type := ObjectId * Doc.t.

(** Calls made on [db["items"]]. *)
Inductive db_call :=
| insert_one_call (doc : Doc.t)
| find_sort_to_list_call (key : string) (direction : Z) (length : nat)
| find_one_call (oid : ObjectId)
| find_one_and_update_call (oid : ObjectId) (update_doc : gmap string string)
| delete_one_call (oid : ObjectId).

(** The database as the handlers see it: the documents of [items] by
    [_id], the ghost log of the calls made so far, and the rank by which
    the server orders documents that a sort leaves tied.  MongoDB does
    not specify that order, so it is an arbitrary part of the state. *)
Record mongo := Mongo {
  items : gmap ObjectId Doc.t;
  calls : list db_call;
  tie_order : ObjectId → N
}.

Definition log (c : db_call) (s : mongo) : mongo :=
  Mongo (items s) (calls s ++ [c]) (tie_order s).

(** Handlers run in a state-and-exception monad over the database; what a
    call wrote before an exception stays written. *)
Definition M (A : Type) : Type := mongo → outcome A * mongo.

#[global] Instance M_ret : MRet M := λ A a s, (Return a, s).
#[global] Instance M_bind : MBind M := λ A B k m s,
  match m s with
  | (Return a, s') => k a s'
  | (Raise e, s') => (Raise e, s')
  end.

Definition raise {A} (e : exception) : M A := λ s, (Raise e, s).
Definition lift {A} (r : outcome A) : M A := λ s, (r, s).

(** bson's codec on a datetime: it is encoded as whole milliseconds since
    the epoch (rounded down) and decoded, with the driver's default
    [tz_aware=False], as a naive datetime. *)
Definition bson_datetime (t : datetime) : datetime :=
  Datetime (timestamp t / 1000 * 1000) None.

(** A document as the collection keeps it and gives it back. *)
Definition bson_document (doc : Doc.t) : Doc.t :=
  Doc.mk (Doc.name doc) (Doc.description doc)
    (bson_datetime (Doc.created_at doc)).

(** [insert_one(doc)]: the driver generates [new_id] for a document
    without [_id]; the server refuses an [_id] that is already there, and
    stores the document as BSON encodes it. *)
Definition insert_one (new_id : ObjectId) (doc : Doc.t) : M ObjectId := λ s,
  let s := log (insert_one_call doc) s in
  match items s !! new_id with
  | Some _ => (Raise DuplicateKeyError, s)
  | None =>
      (Return new_id,
       Mongo (<[new_id := bson_document doc]> (items s)) (calls s)
         (tie_order s))
  end.

(** Order of [sort("created_at", -1)]: newer documents first. *)
Definition newer_first : relation document :=
  λ d1 d2,
    timestamp (Doc.created_at d2.2) ≤ timestamp (Doc.created_at d1.2).

(** The order in which the server returns the sorted documents: newer
    first, and documents with the same [created_at] by their rank. *)
Definition sort_order (tie : ObjectId → N) : relation document :=
  λ d1 d2,
    timestamp (Doc.created_at d2.2) < timestamp (Doc.created_at d1.2) ∨
    (timestamp (Doc.created_at d1.2) = timestamp (Doc.created_at d2.2) ∧
     (tie d1.1 ≤ tie d2.1)%N).

#[global] Instance sort_order_dec (tie : ObjectId → N)
    : RelDecision (sort_order tie) :=
  λ d1 d2,
    decide
      (timestamp (Doc.created_at d2.2) < timestamp (Doc.created_at d1.2) ∨
       (timestamp (Doc.created_at d1.2) = timestamp (Doc.created_at d2.2) ∧
        (tie d1.1 ≤ tie d2.1)%N)).

(** [find({}).sort("created_at", -1)] followed by [to_list(length)]. *)
Definition find_sort_to_list (length : nat) : M (list document) := λ s,
  (Return
     (take length
        (merge_sort (sort_order (tie_order s)) (map_to_list (items s)))),
   log (find_sort_to_list_call "created_at" (-1) length) s).

(** [find_one({"_id": oid})]. *)
Definition find_one (oid : ObjectId) : M (option document) := λ s,
  (Return (pair oid <$> items s !! oid), log (find_one_call oid) s).

(** [{"$set": update_doc}] on a stored document.  The handlers only ever
    put the keys [name] and [description] into [update_doc]. *)
Definition apply_set (update_doc : gmap string string) (d : Doc.t) : Doc.t :=
  Doc.mk
    (default (Doc.name d) (update_doc !! "name"))
    (match update_doc !! "description" with
     | Some v => Some v
     | None => Doc.description d
     end)
    (Doc.created_at d).

(** [find_one_and_update({"_id": oid}, {"$set": update_doc},
    return_document=True)]: the document after the update, if any. *)
Definition find_one_and_update (oid : ObjectId)
    (update_doc : gmap string string) : M (option document) := λ s,
  let s := log (find_one_and_update_call oid update_doc) s in
  match items s !! oid with
  | Some d =>
      let d' := apply_set update_doc d in
      (Return (Some (oid, d')),
       Mongo (<[oid := d']> (items s)) (calls s) (tie_order s))
  | None => (Return None, s)
  end.

(** [delete_one({"_id": oid})], returning [deleted_count]. *)
Definition delete_one (oid : ObjectId) : M Z := λ s,
  let s := log (delete_one_call oid) s in
  match items s !! oid with
  | Some _ =>
      (Return 1, Mongo (delete oid (items s)) (calls s) (tie_order s))
  | None => (Return 0, s)
  end.

(** ** routes/items.py: the handlers *)

Definition HTTP_201_CREATED : Z := 201.
Definition HTTP_204_NO_CONTENT : Z := 204.
Definition HTTP_404_NOT_FOUND : Z := 404.
Definition HTTP_422_UNPROCESSABLE_ENTITY : Z := 422.

Definition _item_doc_to_out (doc : document) : outcome ItemOut.t :=
  ItemOut_init (ObjectId_str doc.1) (Doc.name doc.2)
    (Doc.description doc.2) (Doc.created_at doc.2).

(** [now] is what the clock reads, in microseconds since the epoch, and
    [new_id] the ObjectId the driver generates for this insertion. *)
Definition create_item (now : Z) (new_id : ObjectId)
    (payload : ItemCreate) : M ItemOut.t :=
  let created_at := datetime_now_utc now in
  let doc :=
    Doc.mk (ItemBase.name payload) (ItemBase.description payload) created_at in
  inserted_id ← insert_one new_id doc;
  lift (_item_doc_to_out (inserted_id, doc)).

Definition list_items : M (list ItemOut.t) :=
  docs ← find_sort_to_list 1000;
  lift (mapM _item_doc_to_out docs).

(** The [try: object_id_from_str(id) except ValueError: raise
    HTTPException(422)] block that opens [get_item], [update_item] and
    [delete_item]. *)
Definition try_object_id_from_str (id : string) : M ObjectId :=
  match object_id_from_str id with
  | Return oid => mret oid
  | Raise (ValueError _) =>
      raise (HTTPException HTTP_422_UNPROCESSABLE_ENTITY "Invalid ObjectId")
  | Raise e => raise e
  end.

Definition get_item (id : string) : M ItemOut.t :=
  oid ← try_object_id_from_str id;
  doc ← find_one oid;
  match doc with
  | None => raise (HTTPException HTTP_404_NOT_FOUND "Item not found")
  | Some doc => lift (_item_doc_to_out doc)
  end.

(** The dict [update_doc] that [update_item] fills from the payload. *)
Definition build_update_doc (payload : ItemUpdate.t) : gmap string string :=
  let update_doc : gmap string string := ∅ in
  let update_doc :=
    match ItemUpdate.name payload with
    | Some name => <["name" := name]> update_doc
    | None => update_doc
    end in
  let update_doc :=
    match ItemUpdate.description payload with
    | Some description => <["description" := description]> update_doc
    | None => update_doc
    end in
  update_doc.

Definition update_item (payload : ItemUpdate.t) (id : string) : M ItemOut.t :=
  oid ← try_object_id_from_str id;
  let update_doc := build_update_doc payload in
  if decide (update_doc = ∅) then
    doc ← find_one oid;
    match doc with
    | None => raise (HTTPException HTTP_404_NOT_FOUND "Item not found")
    | Some doc => lift (_item_doc_to_out doc)
    end
  else
    result ← find_one_and_update oid update_doc;
    match result with
    | None => raise (HTTPException HTTP_404_NOT_FOUND "Item not found")
    | Some result => lift (_item_doc_to_out result)
    end.

Definition delete_item (id : string) : M unit :=
  oid ← try_object_id_from_str id;
  deleted_count ← delete_one oid;
  if decide (deleted_count = 0)
  then raise (HTTPException HTTP_404_NOT_FOUND "Item not found")
  else mret tt.

(** ** The routes, as FastAPI serves them *)

(** A response: its status code and, on success, its body ([None] for a
    response without body); an error response carries its [detail]. *)
Inductive response (A : Type) :=
| Response (status_code : Z) (body : option A)
| ErrorResponse (status_code : Z) (detail : string).
Arguments Response {A} status_code body.
Arguments ErrorResponse {A} status_code detail.

Definition status {A} (r : response A) : Z :=
  match r with
  | Response c _ => c
  | ErrorResponse c _ => c
  end.

(** FastAPI's exception handling: an [HTTPException] gives its own status,
    a body that fails validation gives 422, anything else 500. *)
Definition error_response {A} (e : exception) : response A :=
  match e with
  | HTTPException c d => ErrorResponse c d
  | RequestValidationError =>
      ErrorResponse HTTP_422_UNPROCESSABLE_ENTITY "Unprocessable Entity"
  | _ => ErrorResponse 500 "Internal Server Error"
  end.

Definition serve {A} (status_code : Z) (m : M A) : mongo → response A * mongo :=
  λ s,
  match m s with
  | (Return a, s') => (Response status_code (Some a), s')
  | (Raise e, s') => (error_response e, s')
  end.

(** Validation of a request body against the payload model of the route. *)
Definition validate_body {A} (r : outcome A) : M A :=
  match r with
  | Return a => mret a
  | Raise _ => raise RequestValidationError
  end.

(** POST /items *)
Definition POST_items (now : Z) (new_id : ObjectId)
    (b : gmap string json) : mongo → response ItemOut.t * mongo :=
  serve HTTP_201_CREATED
    (payload ← validate_body (ItemCreate_validate b);
     create_item now new_id payload).

(** GET /items *)
Definition GET_items : mongo → response (list ItemOut.t) * mongo :=
  serve 200 list_items.

(** GET /items/{id} *)
Definition GET_item (id : string) : mongo → response ItemOut.t * mongo :=
  serve 200 (get_item id).

(** PUT /items/{id} *)
Definition PUT_item (id : string) (b : gmap string json)
    : mongo → response ItemOut.t * mongo :=
  serve 200
    (payload ← validate_body (ItemUpdate_validate b); update_item payload id).

(** DELETE /items/{id}: status 204, and a 204 response has no body. *)
Definition DELETE_item (id : string) : mongo → response unit * mongo := λ s,
  match delete_item id s with
  | (Return _, s') => (Response HTTP_204_NO_CONTENT None, s')
  | (Raise e, s') => (error_response e, s')
  end.

(** A request to the items routes, with the two values the environment
    supplies to a creation (the clock and the generated ObjectId). *)
Inductive request :=
| Create (now : Z) (new_id : ObjectId) (b : gmap string json)
| List_
| Get (id : string)
| Update (id : string) (b : gmap string json)
| Delete (id : string).

(** The database after a request. *)
Definition handle (s : mongo) (r : request) : mongo :=
  match r with
  | Create now new_id b => (POST_items now new_id b s).2
  | List_ => (GET_items s).2
  | Get id => (GET_item id s).2
  | Update id b => (PUT_item id b s).2
  | Delete id => (DELETE_item id s).2
  end.

Definition run (rs : list request) (s : mongo) : mongo := foldl handle s rs.

(** The rank of an ObjectId read as a number: for the ObjectIds of one
    driver, which hold the time and a counter, the order of insertion. *)
Definition ObjectId_rank (oid : ObjectId) : N :=
  foldl (λ n b, (256 * n + Byte.to_N b)%N) 0%N oid.

Definition empty_mongo : mongo := Mongo ∅ [] ObjectId_rank.

(** ** db.py: the connection holder *)

(** Motor's client and database handles: what they were built from. *)
Record AsyncIOMotorClient := MotorClient { uri : string }.
Record AsyncIOMotorDatabase := MotorDatabase {
  database_client : AsyncIOMotorClient;
  database_name : string
}.

(** [AsyncIOMotorClient(uri)]: the constructor parses the connection
    string and opens no connection yet.  [uri_error] is the verdict of
    the driver's parser: the exception for a string it refuses. *)
Definition AsyncIOMotorClient_init (uri_error : string → option exception)
    (uri : string) : outcome AsyncIOMotorClient :=
  match uri_error uri with
  | Some e => Raise e
  | None => Return (MotorClient uri)
  end.

(** The characters pymongo refuses in a database name: space, [.], [$],
    [/], the backslash, NUL and the double quote. *)
Definition invalid_name_char (c : ascii) : bool :=
  bool_decide
    (c ∈ [" "%char; "."%char; "$"%char; "/"%char; "\"%char;
         ascii_of_nat 0; ascii_of_nat 34]).

(** pymongo's [_check_name]: not empty, and none of those characters. *)
Definition _check_name (name : string) : bool :=
  negb (String.length name =? 0)%nat &&
  forallb (λ c, negb (invalid_name_char c)) (list_ascii_of_string name).

(** [client[name]]: the database handle, unless the name is refused
    (every name but "$external" goes through [_check_name]). *)
Definition client_getitem (client : AsyncIOMotorClient) (name : string)
    : outcome AsyncIOMotorDatabase :=
  if bool_decide (name = "$external") || _check_name name
  then Return (MotorDatabase client name)
  else Raise InvalidName.

Module MongoDB.
Record t := mk {
  _client : option AsyncIOMotorClient;
  _db : option AsyncIOMotorDatabase
}.

Definition __init__ : t := mk None None.

(** The property [client]. *)
Definition client (self : t) : outcome AsyncIOMotorClient :=
  match _client self with
  | None =>
      Raise (RuntimeError "MongoDB client is not initialized. Did startup run?")
  | Some c => Return c
  end.

(** The property [db]. *)
Definition db (self : t) : outcome AsyncIOMotorDatabase :=
  match _db self with
  | None =>
      Raise (RuntimeError "MongoDB database is not initialized. Did startup run?")
  | Some d => Return d
  end.

(** [init], reading [os.environ]: its result and the holder afterwards.
    [_client] is assigned before the database is looked up, so an
    exception of the lookup leaves the new client with the old [_db]. *)
Definition init (uri_error : string → option exception)
    (environ : gmap string string) (self : t) : outcome unit * t :=
  let mongodb_uri := default "mongodb://localhost:27017" (environ !! "MONGODB_URI") in
  let db_name := default "app" (environ !! "MONGODB_DB_NAME") in
  match AsyncIOMotorClient_init uri_error mongodb_uri with
  | Raise e => (Raise e, self)
  | Return client =>
      let self := mk (Some client) (_db self) in
      match client_getitem client db_name with
      | Raise e => (Raise e, self)
      | Return db => (Return tt, mk (_client self) (Some db))
      end
  end.

(** [close]: its result, the holder afterwards, and the clients whose
    [close()] it called. *)
Definition close (self : t) : outcome unit * t * list AsyncIOMotorClient :=
  let closed :=
    match _client self with
    | Some c => [c]
    | None => []
    end in
  (Return tt, mk None None, closed).

(** What the application does with the holder. *)
Inductive op :=
| Init (uri_error : string → option exception) (environ : gmap string string)
| Close
| Client
| Db.

Definition is_init (o : op) : bool :=
  match o with
  | Init _ _ => true
  | _ => false
  end.

(** The holder after an operation (reading a property changes nothing). *)
Definition step (self : t) (o : op) : t :=
  match o with
  | Init uri_error environ => (init uri_error environ self).2
  | Close => (close self).1.2
  | Client | Db => self
  end.

Definition steps (os : list op) (self : t) : t := foldl step self os.
End MongoDB.

(** db.py, [get_db]: the dependency of every handler. *)
Definition get_db (mongodb : MongoDB.t) : outcome AsyncIOMotorDatabase :=
  MongoDB.db mongodb.

(** ** Vocabulary of the statements *)

(** The [ItemOut] that mirrors a stored document. *)
Definition item_out (doc : document) : ItemOut.t :=
  ItemOut.mk (ObjectId_str doc.1) (Doc.name doc.2)
    (Doc.description doc.2) (Doc.created_at doc.2).

(** The invariant of the data model on names: every stored item has a
    non-empty [name]. *)
Definition names_nonempty (s : mongo) : Prop :=
  ∀ oid d, items s !! oid = Some d → Doc.name d ≠ "".

(** The character is a hex digit or ASCII whitespace. *)
Definition hex_or_space (c : ascii) : bool :=
  Py_ISSPACE c || bool_decide (is_Some (hex_digit_value c)).

(** The request inserts a document under [oid]. *)
Definition creates (oid : ObjectId) (r : request) : bool :=
  match r with
  | Create _ new_id _ => bool_decide (new_id = oid)
  | _ => false
  end.

(** Orders on the [created_at] of responses. *)
Definition not_older (a b : ItemOut.t) : Prop :=
  timestamp (ItemOut.created_at b) ≤ timestamp (ItemOut.created_at a).
Definition strictly_newer (a b : ItemOut.t) : Prop :=
  timestamp (ItemOut.created_at b) < timestamp (ItemOut.created_at a).

(** The instant of the [created_at] of a response. *)
Definition created_timestamp (out : ItemOut.t) : Z :=
  timestamp (ItemOut.created_at out).

(** The items of a response to List ([[]] for an error response). *)
Definition answered (r : response (list ItemOut.t)) : list ItemOut.t :=
  match r with
  | Response _ (Some outs) => outs
  | _ => []
  end.

(** Two items next to each other have the same instant. *)
Fixpoint adjacent_tie (outs : list ItemOut.t) : bool :=
  match outs with
  | x :: (y :: _) as rest =>
      (created_timestamp x =? created_timestamp y) || adjacent_tie rest
  | _ => false
  end.

(** ** Sample data *)

(** Two ObjectIds as the driver generates them, and their string forms. *)
Definition oid1 : ObjectId :=
  [Byte.x65; Byte.x4f; Byte.x1a; Byte.x2b; Byte.x3c; Byte.x4d;
   Byte.x5e; Byte.x6f; Byte.x70; Byte.x81; Byte.x92; Byte.xa3].
Definition id1 : string := "654f1a2b3c4d5e6f708192a3".

(** A store with one item. *)
Definition doc_a : Doc.t := Doc.mk "a" (Some "first") (Datetime 1000 None).
Definition store_a : mongo := Mongo {[oid1 := doc_a]} [] ObjectId_rank.

Definition oid2 : ObjectId :=
  [Byte.x65; Byte.x4f; Byte.x1a; Byte.x2b; Byte.x3c; Byte.x4d;
   Byte.x5e; Byte.x6f; Byte.x70; Byte.x81; Byte.x92; Byte.xa4].
Definition id2 : string := "654f1a2b3c4d5e6f708192a4".
Definition oid3 : ObjectId :=
  [Byte.x65; Byte.x4f; Byte.x1a; Byte.x2b; Byte.x3c; Byte.x4d;
   Byte.x5e; Byte.x6f; Byte.x70; Byte.x81; Byte.x92; Byte.xa5].

(** The ObjectId of the same driver whose counter reads [i]. *)
Definition nth_oid (i : nat) : ObjectId :=
  [Byte.x65; Byte.x4f; Byte.x1a; Byte.x2b; Byte.x3c; Byte.x4d;
   Byte.x5e; Byte.x6f; Byte.x70; Byte.x81;
   default Byte.x00 (Byte.of_N (N.of_nat (i / 256)));
   default Byte.x00 (Byte.of_N (N.of_nat (i mod 256)))].

(** A store of 1002 items: items [2k] and [2k+1] were created in the
    same millisecond [k]. *)
Definition nth_doc (i : nat) : Doc.t :=
  Doc.mk "item" None (Datetime (1000 * Z.of_nat (i / 2)) None).
Definition big_store : mongo :=
  Mongo (list_to_map ((λ i, (nth_oid i, nth_doc i)) <$> seq 0 1002)) []
    ObjectId_rank.

(** A string of 24 characters that is not 24 hex digits: 22 hex digits
    and two spaces; and the 11 bytes [bytes.fromhex] reads from it. *)
Definition spaced_id : string := "654f1a2b3c4d5e6f708192  ".
Definition spaced_oid : ObjectId :=
  [Byte.x65; Byte.x4f; Byte.x1a; Byte.x2b; Byte.x3c; Byte.x4d;
   Byte.x5e; Byte.x6f; Byte.x70; Byte.x81; Byte.x92].

(** Two items created at the same instant. *)
Definition ties_store : mongo :=
  run [Create 1000 oid1 {["name" := JString "a"]};
       Create 1000 oid2 {["name" := JString "b"]}] empty_mongo.

(** An item is created, then updated with an empty name. *)
Definition empty_name_requests : list request :=
  [Create 1000 oid1 {["name" := JString "a"]};
   Update id1 {["name" := JString ""]}].

(** ** main.py: the application *)

(** The startup and shutdown hooks, on the module-level holder [mongodb]. *)
Definition on_startup (uri_error : string → option exception)
    (environ : gmap string string) (mongodb : MongoDB.t)
    : outcome unit * MongoDB.t :=
  MongoDB.init uri_error environ mongodb.

Definition on_shutdown (mongodb : MongoDB.t)
    : outcome unit * MongoDB.t * list AsyncIOMotorClient :=
  MongoDB.close mongodb.

(** [health_check]: [command] is the driver's [db.command], whose result
    depends on the server being reachable. *)
Definition health_check (mongodb : MongoDB.t)
    (command : AsyncIOMotorDatabase → string → outcome unit)
    : outcome (gmap string string) :=
  db ← MongoDB.db mongodb;
  _ ← command db "ping";
  mret ({["status" := "ok"; "mongodb" := "ok"]} : gmap string string).

Definition root_health_check : gmap string string :=
  {["message" := "Healthy"]}.

(** GET /health *)
Definition GET_health (mongodb : MongoDB.t)
    (command : AsyncIOMotorDatabase → string → outcome unit)
    : response (gmap string string) :=
  match health_check mongodb command with
  | Return content => Response 200 (Some content)
  | Raise e => error_response e
  end.

(** GET / *)
Definition GET_root : response (gmap string string) :=
  Response 200 (Some root_health_check).



(** ** More vocabulary *)

(** A driver that accepts every connection string, and one that refuses
    every one. *)
Definition accept_uri (uri : string) : option exception := None.
Definition refuse_uri (uri : string) : option exception := Some InvalidURI.

(** The operation only reads a property of the holder. *)
Definition is_read (o : MongoDB.op) : bool :=
  match o with
  | MongoDB.Client | MongoDB.Db => true
  | _ => false
  end.

(** The operation is a [close]. *)
Definition is_close (o : MongoDB.op) : bool :=
  match o with
  | MongoDB.Close => true
  | _ => false
  end.

(** The status code that answers a request. *)
Definition answer_status (r : request) (s : mongo) : Z :=
  match r with
  | Create now new_id b => status (POST_items now new_id b s).1
  | List_ => status (GET_items s).1
  | Get id => status (GET_item id s).1
  | Update id b => status (PUT_item id b s).1
  | Delete id => status (DELETE_item id s).1
  end.

(** The request is an Update whose body gives the empty string as name. *)
Definition sets_empty_name (r : request) : bool :=
  match r with
  | Update _ b =>
      match b !! "name" with
      | Some (JString EmptyString) => true
      | _ => false
      end
  | _ => false
  end.

(** The server answers every [ping]. *)
Definition reachable (db : AsyncIOMotorDatabase) (cmd : string) : outcome unit :=
  Return tt.

(** A store with the item [doc_a] and an item whose name is empty. *)
Definition store_bad : mongo :=
  Mongo {[oid1 := doc_a; oid2 := Doc.mk "" None (Datetime 2000 None)]} []
    ObjectId_rank.

(** * Properties *)

(** ** The connection holder *)

Lemma steps_without_init (os : list MongoDB.op) (self : MongoDB.t) :
  forallb (λ o, negb (MongoDB.is_init o)) os = true →
  MongoDB._client self = None → MongoDB._db self = None →
  MongoDB.steps os self = MongoDB.mk None None.
Proof.
  revert self. induction os as [|o os IH]; intros [c d] Hos Hc Hd; simpl in *.
  - by subst.
  - apply andb_prop in Hos as [Ho Hos].
    destruct o; simpl in *; try discriminate; apply IH; done.
Qed.

(** C8. Reading [client] or [db] fails with the RuntimeError "... is not
    initialized" when [init] has not run yet on the fresh holder, and at
    any later point after a [close] as long as no [init] ran since: the
    handles of the closed connection are never returned. *)
Theorem access_uninitialized (before after : list MongoDB.op) (self : MongoDB.t) :
  forallb (λ o, negb (MongoDB.is_init o)) before = true →
  forallb (λ o, negb (MongoDB.is_init o)) after = true →
  let fresh := MongoDB.steps before MongoDB.__init__ in
  let closed := MongoDB.steps after (MongoDB.close self).1.2 in
  MongoDB.client fresh =
    Raise (RuntimeError "MongoDB client is not initialized. Did startup run?") ∧
  MongoDB.db fresh =
    Raise (RuntimeError "MongoDB database is not initialized. Did startup run?") ∧
  MongoDB.client closed =
    Raise (RuntimeError "MongoDB client is not initialized. Did startup run?") ∧
  MongoDB.db closed =
    Raise (RuntimeError "MongoDB database is not initialized. Did startup run?") ∧
  get_db closed =
    Raise (RuntimeError "MongoDB database is not initialized. Did startup run?").
Proof.
  intros Hb Ha fresh closed.
  assert (fresh = MongoDB.mk None None) as ->
    by (by apply steps_without_init).
  assert (closed = MongoDB.mk None None) as ->
    by (by apply steps_without_init).
  done.
Qed.

Lemma access_uninitialized_witness :
  let self := (MongoDB.init accept_uri ∅ MongoDB.__init__).2 in
  MongoDB.client (MongoDB.steps [MongoDB.Db; MongoDB.Close] MongoDB.__init__) =
    Raise (RuntimeError "MongoDB client is not initialized. Did startup run?") ∧
  MongoDB.db (MongoDB.steps [MongoDB.Client; MongoDB.Close] (MongoDB.close self).1.2) =
    Raise (RuntimeError "MongoDB database is not initialized. Did startup run?").
Proof.
  intros self.
  pose proof (access_uninitialized [MongoDB.Db; MongoDB.Close]
                [MongoDB.Client; MongoDB.Close] self eq_refl eq_refl) as H.
  split; [apply H | apply H].
Defined.

(** C10. [close] never fails, whatever the state of the holder (fresh,
    initialized or already closed); afterwards both handles are [None];
    a second [close] changes nothing and closes no client, so closing
    twice leaves the holder as closing once does. *)
Theorem close_idempotent (self : MongoDB.t) :
  (MongoDB.close self).1.1 = Return tt ∧
  (MongoDB.close MongoDB.__init__) = (Return tt, MongoDB.__init__, []) ∧
  MongoDB._client (MongoDB.close self).1.2 = None ∧
  MongoDB._db (MongoDB.close self).1.2 = None ∧
  MongoDB.close (MongoDB.close self).1.2 =
    (Return tt, (MongoDB.close self).1.2, []) ∧
  MongoDB.steps [MongoDB.Close; MongoDB.Close] self =
    MongoDB.steps [MongoDB.Close] self.
Proof.
  destruct self as [client db]. unfold MongoDB.steps, MongoDB.close. simpl.
  by split_and!.
Qed.

(** ** Identifier parsing *)

Lemma object_id_from_str_cases (id : string) :
  (∃ oid, ObjectId_init id = Some oid ∧ object_id_from_str id = Return oid) ∨
  (ObjectId_init id = None ∧
   object_id_from_str id = Raise (ValueError "Invalid ObjectId")).
Proof.
  unfold object_id_from_str. destruct (ObjectId_init id) as [oid|]; eauto.
Qed.

Lemma try_object_id_Return (id : string) (oid : ObjectId) (s : mongo) :
  object_id_from_str id = Return oid →
  try_object_id_from_str id s = (Return oid, s).
Proof. unfold try_object_id_from_str. by intros ->. Qed.

Lemma try_object_id_Raise (id : string) (s : mongo) :
  ObjectId_init id = None →
  try_object_id_from_str id s =
    (Raise (HTTPException 422 "Invalid ObjectId"), s).
Proof.
  unfold try_object_id_from_str, object_id_from_str. by intros ->.
Qed.

Lemma ObjectId_init_length (id : string) :
  String.length id ≠ 24%nat → ObjectId_init id = None.
Proof. unfold ObjectId_init. intros H. by rewrite decide_False. Qed.

Example not_an_id_rejected : ObjectId_init "not-an-id" = None.
Proof. reflexivity. Qed.

Lemma bytes_fromhex_chars (n : nat) (s : string) (bs : list byte) :
  (String.length s ≤ n)%nat →
  bytes_fromhex s = Some bs →
  Forall (λ c, hex_or_space c = true) (list_ascii_of_string s).
Proof.
  revert s bs. induction n as [|n IH]; intros s bs Hn Hs.
  { destruct s; [constructor | simpl in Hn; lia]. }
  destruct s as [|c s']; [constructor|].
  cbn [bytes_fromhex list_ascii_of_string String.length] in Hn, Hs |- *.
  destruct (Py_ISSPACE c) eqn:Hc.
  { constructor; [unfold hex_or_space; by rewrite Hc|].
    apply (IH s' bs); [lia | done]. }
  destruct (hex_digit_value c) as [top|] eqn:Htop; [|done].
  destruct s' as [|c' s'']; [done|].
  destruct (hex_digit_value c') as [bot|] eqn:Hbot; [|done].
  destruct (Byte.of_N (16 * top + bot)); [|done].
  destruct (bytes_fromhex s'') as [bs'|] eqn:Hs''; [|done].
  cbn [list_ascii_of_string String.length] in Hn |- *.
  constructor; [unfold hex_or_space; rewrite Htop; by rewrite orb_true_r|].
  constructor; [unfold hex_or_space; rewrite Hbot; by rewrite orb_true_r|].
  apply (IH s'' bs'); [lia | done].
Qed.

(** What the constructor rejects: every string whose length is not 24, and
    every string with a character that is neither a hex digit nor ASCII
    whitespace. *)
Lemma ObjectId_init_rejects (id : string) :
  String.length id ≠ 24%nat ∨
  Exists (λ c, hex_or_space c = false) (list_ascii_of_string id) →
  ObjectId_init id = None.
Proof.
  intros [Hlen|Hbad]; [by apply ObjectId_init_length|].
  unfold ObjectId_init. case_decide; [|done].
  destruct (bytes_fromhex id) as [bs|] eqn:Hid; [|done].
  apply (bytes_fromhex_chars _ _ _ (le_n _)) in Hid.
  apply Exists_exists in Hbad as (c & Hc & Hfalse).
  rewrite Forall_forall in Hid. specialize (Hid c Hc). congruence.
Qed.

Lemma hex_digit_value_Some (c : ascii) (v : N) :
  hex_digit_value c = Some v → Py_ISSPACE c = false ∧ (v < 16)%N.
Proof.
  destruct c as [[] [] [] [] [] [] [] []]; vm_compute; try done;
    by intros [= <-].
Qed.

Lemma bytes_fromhex_hex (n : nat) (s : string) :
  String.length s = (2 * n)%nat →
  Forall (λ c, is_Some (hex_digit_value c)) (list_ascii_of_string s) →
  ∃ bs, bytes_fromhex s = Some bs ∧ length bs = n.
Proof.
  revert s. induction n as [|n IH]; intros s Hlen Hhex.
  { destruct s; [by exists [] | done]. }
  destruct s as [|c [|c' s'']]; simpl in Hlen; try lia.
  cbn [list_ascii_of_string] in Hhex.
  apply Forall_cons in Hhex as [[top Htop] Hhex].
  apply Forall_cons in Hhex as [[bot Hbot] Hhex].
  destruct (IH s'') as (bs & Hbs & Hn); [lia | done |].
  destruct (hex_digit_value_Some _ _ Htop) as [Hc Htop16].
  destruct (hex_digit_value_Some _ _ Hbot) as [_ Hbot16].
  destruct (Byte.of_N (16 * top + bot)) as [b|] eqn:Hb.
  - exists (b :: bs). cbn [bytes_fromhex].
    rewrite Hc, Htop, Hbot, Hb, Hbs. simpl. split; [done | lia].
  - pose proof (Byte.to_of_N_option_map (16 * top + bot)) as Hopt.
    rewrite Hb in Hopt. simpl in Hopt.
    destruct (N.leb_spec (16 * top + bot) 255); [done | lia].
Qed.

(** What the constructor accepts at least: every string of 24 hex digits,
    as a 12-byte ObjectId. *)
Lemma ObjectId_init_hex24 (id : string) :
  String.length id = 24%nat →
  Forall (λ c, is_Some (hex_digit_value c)) (list_ascii_of_string id) →
  ∃ oid, object_id_from_str id = Return oid ∧ length oid = 12%nat.
Proof.
  intros Hlen Hhex.
  destruct (bytes_fromhex_hex 12 id Hlen Hhex) as (oid & Hoid & H12).
  exists oid. unfold object_id_from_str, ObjectId_init.
  by rewrite decide_True, Hoid.
Qed.

Lemma bytes_fromhex_hexlify_cons (b : byte) (rest : string) :
  bytes_fromhex
    (String (hex_char (Byte.to_N b / 16))
       (String (hex_char (Byte.to_N b mod 16)) rest)) =
  match bytes_fromhex rest with
  | Some bs => Some (b :: bs)
  | None => None
  end.
Proof. destruct b; reflexivity. Qed.

Lemma bytes_fromhex_hexlify (bs : list byte) :
  bytes_fromhex (hexlify bs) = Some bs.
Proof.
  induction bs as [|b bs IH]; [done|].
  cbn [hexlify]. by rewrite bytes_fromhex_hexlify_cons, IH.
Qed.

Lemma length_hexlify (bs : list byte) :
  String.length (hexlify bs) = (2 * length bs)%nat.
Proof. induction bs as [|b bs IH]; simpl; lia. Qed.

(** Parsing the string form of a 12-byte ObjectId gives it back. *)
Lemma object_id_from_str_ObjectId_str (oid : ObjectId) :
  length oid = 12%nat → object_id_from_str (ObjectId_str oid) = Return oid.
Proof.
  intros Hlen. unfold object_id_from_str, ObjectId_init, ObjectId_str.
  rewrite decide_True by (rewrite length_hexlify; lia).
  by rewrite bytes_fromhex_hexlify.
Qed.

(** ** What each handler does, in closed form *)

Lemma _item_doc_to_out_nonempty (doc : document) :
  Doc.name doc.2 ≠ "" → _item_doc_to_out doc = Return (item_out doc).
Proof.
  unfold _item_doc_to_out, ItemOut_init, item_out.
  destruct (Doc.name doc.2); [done|]. by intros _.
Qed.

Lemma _item_doc_to_out_empty (doc : document) :
  Doc.name doc.2 = "" → _item_doc_to_out doc = Raise ValidationError.
Proof. unfold _item_doc_to_out, ItemOut_init. by intros ->. Qed.

Lemma get_item_eq (id : string) (oid : ObjectId) (s : mongo) :
  object_id_from_str id = Return oid →
  get_item id s =
    (match items s !! oid with
     | Some d => _item_doc_to_out (oid, d)
     | None => Raise (HTTPException 404 "Item not found")
     end, log (find_one_call oid) s).
Proof.
  intros Hid. unfold get_item, mbind, M_bind.
  rewrite (try_object_id_Return _ _ _ Hid). unfold find_one; simpl.
  by destruct (items s !! oid).
Qed.

Lemma build_update_doc_empty (payload : ItemUpdate.t) :
  build_update_doc payload = ∅ ↔
  ItemUpdate.name payload = None ∧ ItemUpdate.description payload = None.
Proof.
  destruct payload as [[n|] [d|]]; unfold build_update_doc; simpl; split;
    try done; try (by intros [??]).
  all: intros H; exfalso; revert H; apply insert_non_empty.
Qed.

Lemma apply_set_build_update_doc (payload : ItemUpdate.t) (d : Doc.t) :
  apply_set (build_update_doc payload) d =
  Doc.mk
    (default (Doc.name d) (ItemUpdate.name payload))
    (match ItemUpdate.description payload with
     | Some v => Some v
     | None => Doc.description d
     end)
    (Doc.created_at d).
Proof.
  destruct payload as [[n|] [v|]]; unfold apply_set, build_update_doc; simpl;
    by simplify_map_eq.
Qed.

Lemma update_item_eq (payload : ItemUpdate.t) (id : string) (oid : ObjectId)
    (s : mongo) :
  object_id_from_str id = Return oid →
  update_item payload id s =
    let update_doc := build_update_doc payload in
    if decide (update_doc = ∅) then
      (match items s !! oid with
       | Some d => _item_doc_to_out (oid, d)
       | None => Raise (HTTPException 404 "Item not found")
       end, log (find_one_call oid) s)
    else
      match items s !! oid with
      | Some d =>
          (_item_doc_to_out (oid, apply_set update_doc d),
           Mongo (<[oid := apply_set update_doc d]> (items s))
             (calls s ++ [find_one_and_update_call oid update_doc])
             (tie_order s))
      | None =>
          (Raise (HTTPException 404 "Item not found"),
           log (find_one_and_update_call oid update_doc) s)
      end.
Proof.
  intros Hid. unfold update_item, mbind, M_bind.
  rewrite (try_object_id_Return _ _ _ Hid). simpl.
  destruct (decide (build_update_doc payload = ∅)).
  - unfold find_one; simpl. by destruct (items s !! oid).
  - unfold find_one_and_update; simpl. by destruct (items s !! oid).
Qed.

Lemma delete_item_eq (id : string) (oid : ObjectId) (s : mongo) :
  object_id_from_str id = Return oid →
  delete_item id s =
    match items s !! oid with
    | Some _ =>
        (Return tt,
         Mongo (delete oid (items s)) (calls s ++ [delete_one_call oid])
           (tie_order s))
    | None =>
        (Raise (HTTPException 404 "Item not found"),
         log (delete_one_call oid) s)
    end.
Proof.
  intros Hid. unfold delete_item, mbind, M_bind.
  rewrite (try_object_id_Return _ _ _ Hid). unfold delete_one; simpl.
  by destruct (items s !! oid).
Qed.

Lemma PUT_item_eq (id : string) (b : gmap string json) (s : mongo) :
  PUT_item id b s =
    match ItemUpdate_validate b with
    | Return payload => serve 200 (update_item payload id) s
    | Raise _ => (ErrorResponse 422 "Unprocessable Entity", s)
    end.
Proof.
  unfold PUT_item, serve, mbind, M_bind, validate_body.
  by destruct (ItemUpdate_validate b).
Qed.

Lemma POST_items_eq (now : Z) (new_id : ObjectId)
    (b : gmap string json) (s : mongo) :
  POST_items now new_id b s =
    match ItemCreate_validate b with
    | Return payload => serve 201 (create_item now new_id payload) s
    | Raise _ => (ErrorResponse 422 "Unprocessable Entity", s)
    end.
Proof.
  unfold POST_items, serve, mbind, M_bind, validate_body.
  by destruct (ItemCreate_validate b).
Qed.

(** ** Malformed identifiers *)

(** C2. When the ObjectId constructor rejects the id string, Get, Update
    (whatever its body) and Delete answer 422 and the database is exactly
    as before: same documents, and no call was made on the collection.
    The handlers raise [HTTPException(422, "Invalid ObjectId")]. *)
Theorem malformed_id_422 (id : string) (b : gmap string json)
    (payload : ItemUpdate.t) (s : mongo) :
  ObjectId_init id = None →
  GET_item id s = (ErrorResponse 422 "Invalid ObjectId", s) ∧
  update_item payload id s =
    (Raise (HTTPException 422 "Invalid ObjectId"), s) ∧
  status (PUT_item id b s).1 = 422 ∧ (PUT_item id b s).2 = s ∧
  DELETE_item id s = (ErrorResponse 422 "Invalid ObjectId", s).
Proof.
  intros Hid.
  assert (∀ p, update_item p id s =
               (Raise (HTTPException 422 "Invalid ObjectId"), s)) as Hupd.
  { intros p. unfold update_item, mbind, M_bind.
    by rewrite (try_object_id_Raise _ _ Hid). }
  split_and!.
  - unfold GET_item, serve, get_item, mbind, M_bind.
    by rewrite (try_object_id_Raise _ _ Hid).
  - apply Hupd.
  - rewrite PUT_item_eq. unfold serve.
    destruct (ItemUpdate_validate b); [by rewrite Hupd | done].
  - rewrite PUT_item_eq. unfold serve.
    destruct (ItemUpdate_validate b); [by rewrite Hupd | done].
  - unfold DELETE_item, delete_item, mbind, M_bind.
    by rewrite (try_object_id_Raise _ _ Hid).
Qed.

(** An id that the constructor accepts is looked up: the handlers go on
    to the collection and none of them answers 422 for the id. *)
Lemma accepted_id_is_looked_up (id : string) (oid : ObjectId) (s : mongo) :
  object_id_from_str id = Return oid →
  calls (GET_item id s).2 = calls s ++ [find_one_call oid] ∧
  status (GET_item id s).1 ≠ 422 ∧
  calls (DELETE_item id s).2 = calls s ++ [delete_one_call oid] ∧
  status (DELETE_item id s).1 ≠ 422.
Proof.
  intros Hid. unfold GET_item, DELETE_item, serve.
  rewrite (get_item_eq _ _ _ Hid), (delete_item_eq _ _ _ Hid).
  destruct (items s !! oid) as [d|]; simpl; [|done].
  destruct (decide (Doc.name d = "")) as [He|Hne].
  - by rewrite (_item_doc_to_out_empty (oid, d)).
  - by rewrite (_item_doc_to_out_nonempty (oid, d)).
Qed.

(** Counterexample to C2 as stated: the id of 22 hex digits and two
    spaces has 24 characters and is not a 24-hex encoding, yet the
    constructor reads 11 bytes from it; Get, Update and Delete then call
    the collection and answer 404, not 422. *)
Lemma spaced_id_is_looked_up :
  String.length spaced_id = 24%nat ∧
  ¬ Forall (λ c, is_Some (hex_digit_value c)) (list_ascii_of_string spaced_id) ∧
  object_id_from_str spaced_id = Return spaced_oid ∧
  GET_item spaced_id store_a =
    (ErrorResponse 404 "Item not found",
     log (find_one_call spaced_oid) store_a) ∧
  PUT_item spaced_id {["name" := JString "b"]} store_a =
    (ErrorResponse 404 "Item not found",
     log (find_one_and_update_call spaced_oid {["name" := "b"]}) store_a) ∧
  DELETE_item spaced_id store_a =
    (ErrorResponse 404 "Item not found",
     log (delete_one_call spaced_oid) store_a).
Proof.
  split_and!; try (vm_compute; reflexivity).
  intros Hhex. rewrite Forall_forall in Hhex.
  assert (" "%char ∈ list_ascii_of_string spaced_id) as Hin
    by (apply list_elem_of_lookup; by exists 22%nat).
  apply Hhex in Hin. vm_compute in Hin. by destruct Hin.
Qed.

Lemma malformed_id_422_witness :
  GET_item "not-an-id" empty_mongo =
    (ErrorResponse 422 "Invalid ObjectId", empty_mongo) ∧
  DELETE_item "not-an-id" empty_mongo =
    (ErrorResponse 422 "Invalid ObjectId", empty_mongo).
Proof.
  pose proof (malformed_id_422 "not-an-id" ∅ (ItemUpdate.mk None None)
                empty_mongo eq_refl) as H.
  split; apply H.
Defined.

(** ** Update *)

Lemma ItemUpdate_validate_absent (b : gmap string json) :
  b !! "name" = None → b !! "description" = None →
  ItemUpdate_validate b = Return (ItemUpdate.mk None None).
Proof. unfold ItemUpdate_validate. by intros -> ->. Qed.

(** An Update whose body sets neither field only reads: the documents
    are those of before and the one call made is [find_one].  It answers
    404 when no document has the id, 200 with the stored item when the
    stored name is non-empty, and 500 when the stored name is empty
    ([ItemOut] rejects it). *)
Lemma empty_update_probe (id : string) (oid : ObjectId)
    (b : gmap string json) (s : mongo) :
  object_id_from_str id = Return oid →
  b !! "name" = None → b !! "description" = None →
  items (PUT_item id b s).2 = items s ∧
  calls (PUT_item id b s).2 = calls s ++ [find_one_call oid] ∧
  (∀ d, items s !! oid = Some d → Doc.name d ≠ "" →
        (PUT_item id b s).1 = Response 200 (Some (item_out (oid, d)))) ∧
  (∀ d, items s !! oid = Some d → Doc.name d = "" →
        (PUT_item id b s).1 = ErrorResponse 500 "Internal Server Error") ∧
  (items s !! oid = None →
   (PUT_item id b s).1 = ErrorResponse 404 "Item not found").
Proof.
  intros Hid Hn Hd.
  rewrite PUT_item_eq, (ItemUpdate_validate_absent _ Hn Hd).
  unfold serve. rewrite (update_item_eq _ _ _ _ Hid). simpl.
  destruct (items s !! oid) as [d|] eqn:Hoid; simpl.
  - destruct (decide (Doc.name d = "")) as [He|Hne].
    + rewrite (_item_doc_to_out_empty (oid, d)) by done.
      split_and!; try done; intros ? [= <-] ?; first [done | congruence].
    + rewrite (_item_doc_to_out_nonempty (oid, d)) by done.
      split_and!; try done; intros ? [= <-] ?; first [done | congruence].
  - by split_and!.
Qed.

Lemma names_nonempty_store_a : names_nonempty store_a.
Proof.
  intros oid d. unfold store_a; simpl.
  by intros [<- <-]%lookup_singleton_Some.
Qed.

Example empty_update_probe_store_a :
  (PUT_item id1 ∅ store_a).1 =
    Response 200
      (Some (ItemOut.mk id1 "a" (Some "first") (Datetime 1000 None))) ∧
  items (PUT_item id1 ∅ store_a).2 = items store_a.
Proof.
  pose proof (empty_update_probe id1 oid1 ∅ store_a eq_refl eq_refl eq_refl)
    as (Hitems & _ & Hfound & _).
  split; [|exact Hitems].
  apply (Hfound doc_a); [apply lookup_singleton_eq | done].
Qed.

(** C5, at the input where the code breaks it.  An item is created and
    then given the empty name by an Update (the defect of C1).  The
    Update with the empty body on that item, whose id is valid and
    stored, reads it and leaves the documents as they are, but answers
    500 where the claim says 200 with the item: [ItemOut] refuses the
    stored name. *)
Theorem empty_update_probe_500 :
  let s1 := run empty_name_requests empty_mongo in
  object_id_from_str id1 = Return oid1 ∧
  ItemUpdate_validate ∅ = Return (ItemUpdate.mk None None) ∧
  items s1 !! oid1 = Some (Doc.mk "" None (Datetime 1000 None)) ∧
  (PUT_item id1 ∅ s1).1 = ErrorResponse 500 "Internal Server Error" ∧
  items (PUT_item id1 ∅ s1).2 = items s1 ∧
  calls (PUT_item id1 ∅ s1).2 = calls s1 ++ [find_one_call oid1].
Proof.
  intros s1.
  assert (items s1 !! oid1 = Some (Doc.mk "" None (Datetime 1000 None)))
    as Hs1 by (vm_compute; reflexivity).
  destruct (empty_update_probe id1 oid1 ∅ s1 eq_refl (lookup_empty _)
              (lookup_empty _))
    as (Hitems & Hcalls & _ & H500 & _).
  split_and!; try done; by apply (H500 _ Hs1).
Qed.

(** A stored document after an Update: as before, or, when it is the
    one addressed, with [update_doc] applied by [$set]. *)
Lemma update_item_lookup (payload : ItemUpdate.t) (id : string)
    (s : mongo) (oid : ObjectId) (d : Doc.t) :
  items s !! oid = Some d →
  items (update_item payload id s).2 !! oid = Some d ∨
  (object_id_from_str id = Return oid ∧
   items (update_item payload id s).2 !! oid =
     Some (apply_set (build_update_doc payload) d)).
Proof.
  intros Hoid.
  destruct (object_id_from_str_cases id) as [(oid0 & _ & Hid)|[Hid _]].
  - rewrite (update_item_eq _ _ _ _ Hid). simpl.
    destruct (decide (build_update_doc payload = ∅)); simpl; [by left|].
    destruct (items s !! oid0) as [d0|] eqn:Hoid0; simpl; [|by left].
    destruct (decide (oid0 = oid)) as [->|Hne].
    + right. rewrite lookup_insert_eq. split; [done|]. congruence.
    + left. by rewrite lookup_insert_ne.
  - left. unfold update_item, mbind, M_bind.
    by rewrite (try_object_id_Raise _ _ Hid).
Qed.

Lemma update_item_dom (payload : ItemUpdate.t) (id : string) (s : mongo) :
  dom (items (update_item payload id s).2) = dom (items s).
Proof.
  destruct (object_id_from_str_cases id) as [(oid0 & _ & Hid)|[Hid _]].
  - rewrite (update_item_eq _ _ _ _ Hid). simpl.
    destruct (decide (build_update_doc payload = ∅)); simpl; [done|].
    destruct (items s !! oid0) as [d0|] eqn:Hoid0; simpl; [|done].
    apply dom_insert_lookup_L. by rewrite Hoid0.
  - unfold update_item, mbind, M_bind.
    by rewrite (try_object_id_Raise _ _ Hid).
Qed.

(** C3. Update changes nothing but the fields its payload provides: for
    every stored document, the document is still stored under the same
    [_id] and with the same [created_at]; its [name] is unchanged when the
    payload has no [name], its [description] is unchanged when the payload
    has no [description]; documents other than the one addressed are
    untouched, and no document appears or disappears. *)
Theorem update_touches_only_provided (payload : ItemUpdate.t) (id : string)
    (s : mongo) (oid : ObjectId) (d : Doc.t) :
  items s !! oid = Some d →
  let s' := (update_item payload id s).2 in
  dom (items s') = dom (items s) ∧
  ∃ d', items s' !! oid = Some d' ∧
    Doc.created_at d' = Doc.created_at d ∧
    (ItemUpdate.name payload = None → Doc.name d' = Doc.name d) ∧
    (ItemUpdate.description payload = None →
     Doc.description d' = Doc.description d) ∧
    (object_id_from_str id ≠ Return oid → d' = d).
Proof.
  intros Hoid s'. subst s'. split; [apply update_item_dom|].
  destruct (update_item_lookup payload id s oid d Hoid) as [Hd'|[Hid Hd']].
  - exists d. by split_and!.
  - exists (apply_set (build_update_doc payload) d). split; [done|].
    rewrite apply_set_build_update_doc. simpl. split_and!.
    + done.
    + by intros ->.
    + by intros ->.
    + by intros [].
Qed.

Lemma update_touches_only_provided_witness :
  ∃ d', items (update_item (ItemUpdate.mk (Some "b") None) id1 store_a).2
          !! oid1 = Some d' ∧
    Doc.created_at d' = Datetime 1000 None ∧ Doc.description d' = Some "first".
Proof.
  destruct (update_touches_only_provided (ItemUpdate.mk (Some "b") None) id1
              store_a oid1 doc_a (lookup_singleton_eq _ _))
    as (_ & d' & Hd' & Hcreated & _ & Hdescr & _).
  exists d'. split_and!; [exact Hd' | exact Hcreated | exact (Hdescr eq_refl)].
Defined.

(** C9. A field given as null is read like a field that is absent: a body
    with [name] (or [description]) null is served exactly like the body
    without that key, and a body of nulls only exactly like the empty body;
    so no Update, whatever its payload, turns a stored [description] that
    is a string into null. *)
Theorem null_is_absent (id : string) (b : gmap string json) (s : mongo) :
  PUT_item id (<["name" := JNull]> b) s = PUT_item id (delete "name" b) s ∧
  PUT_item id (<["description" := JNull]> b) s =
    PUT_item id (delete "description" b) s ∧
  PUT_item id {["name" := JNull; "description" := JNull]} s =
    PUT_item id ∅ s ∧
  ItemUpdate_validate {["name" := JNull; "description" := JNull]} =
    Return (ItemUpdate.mk None None) ∧
  ∀ (payload : ItemUpdate.t) (oid : ObjectId) (d : Doc.t),
    items s !! oid = Some d → Doc.description d ≠ None →
    ∃ d', items (update_item payload id s).2 !! oid = Some d' ∧
          Doc.description d' ≠ None.
Proof.
  split_and!.
  - rewrite !PUT_item_eq. unfold ItemUpdate_validate.
    by rewrite lookup_insert_eq, lookup_delete_eq, lookup_insert_ne,
      lookup_delete_ne.
  - rewrite !PUT_item_eq. unfold ItemUpdate_validate.
    by rewrite lookup_insert_eq, lookup_delete_eq, lookup_insert_ne,
      lookup_delete_ne.
  - by rewrite !PUT_item_eq.
  - done.
  - intros payload oid d Hoid Hdescr.
    destruct (update_item_lookup payload id s oid d Hoid) as [Hd'|[_ Hd']].
    + by exists d.
    + exists (apply_set (build_update_doc payload) d). split; [done|].
      rewrite apply_set_build_update_doc. simpl.
      by destruct (ItemUpdate.description payload).
Qed.

Lemma null_is_absent_witness :
  ∃ d', items (update_item (ItemUpdate.mk (Some "b") None) id1 store_a).2
          !! oid1 = Some d' ∧ Doc.description d' ≠ None.
Proof.
  destruct (null_is_absent id1 ∅ store_a) as (_ & _ & _ & _ & H).
  apply (H (ItemUpdate.mk (Some "b") None) oid1 doc_a);
    [apply lookup_singleton_eq | done].
Defined.

(** ** Delete *)

Lemma serve_state {A} (c : Z) (m : M A) (s : mongo) :
  (serve c m s).2 = (m s).2.
Proof. unfold serve. by destruct (m s) as [[a|e] s']. Qed.

Lemma create_item_absent (now : Z) (new_id oid : ObjectId)
    (payload : ItemCreate) (s : mongo) :
  new_id ≠ oid → items s !! oid = None →
  items (create_item now new_id payload s).2 !! oid = None.
Proof.
  intros Hne Hoid. unfold create_item, mbind, M_bind, insert_one, lift; simpl.
  destruct (items s !! new_id); simpl; [done|].
  by rewrite lookup_insert_ne.
Qed.

Lemma get_item_items (id : string) (s : mongo) :
  items (get_item id s).2 = items s.
Proof.
  destruct (object_id_from_str_cases id) as [(oid & _ & Hid)|[Hid _]].
  - by rewrite (get_item_eq _ _ _ Hid).
  - unfold get_item, mbind, M_bind. by rewrite (try_object_id_Raise _ _ Hid).
Qed.

Lemma list_items_items (s : mongo) : items (list_items s).2 = items s.
Proof. done. Qed.

Lemma update_item_absent (payload : ItemUpdate.t) (id : string)
    (oid : ObjectId) (s : mongo) :
  items s !! oid = None → items (update_item payload id s).2 !! oid = None.
Proof.
  intros Hoid.
  destruct (object_id_from_str_cases id) as [(oid0 & _ & Hid)|[Hid _]].
  - rewrite (update_item_eq _ _ _ _ Hid). simpl.
    destruct (decide (build_update_doc payload = ∅)); simpl; [done|].
    destruct (items s !! oid0) as [d0|] eqn:Hoid0; simpl; [|done].
    rewrite lookup_insert_ne; [done|]. congruence.
  - unfold update_item, mbind, M_bind.
    by rewrite (try_object_id_Raise _ _ Hid).
Qed.

Lemma delete_item_absent (id : string) (oid : ObjectId) (s : mongo) :
  items s !! oid = None → items (delete_item id s).2 !! oid = None.
Proof.
  intros Hoid.
  destruct (object_id_from_str_cases id) as [(oid0 & _ & Hid)|[Hid _]].
  - rewrite (delete_item_eq _ _ _ Hid).
    destruct (items s !! oid0); simpl; [|done].
    rewrite lookup_delete. by case_decide.
  - unfold delete_item, mbind, M_bind.
    by rewrite (try_object_id_Raise _ _ Hid).
Qed.

Lemma DELETE_item_state (id : string) (s : mongo) :
  (DELETE_item id s).2 = (delete_item id s).2.
Proof. unfold DELETE_item. by destruct (delete_item id s) as [[a|e] s']. Qed.

(** An [_id] that is not stored stays so until a creation inserts it. *)
Lemma run_absent (rs : list request) (oid : ObjectId) (s : mongo) :
  forallb (λ r, negb (creates oid r)) rs = true →
  items s !! oid = None → items (run rs s) !! oid = None.
Proof.
  unfold run. revert s.
  induction rs as [|r rs IH]; intros s Hrs Hoid; simpl in *; [done|].
  apply andb_prop in Hrs as [Hr Hrs]. apply IH; [done|].
  destruct r as [now new_id b| |id|id b|id]; simpl in Hr; cbn [handle].
  - rewrite POST_items_eq. destruct (ItemCreate_validate b); [|done].
    rewrite serve_state. apply create_item_absent; [|done].
    by apply negb_true_iff, bool_decide_eq_false in Hr.
  - unfold GET_items. by rewrite serve_state, list_items_items.
  - unfold GET_item. by rewrite serve_state, get_item_items.
  - rewrite PUT_item_eq. destruct (ItemUpdate_validate b); [|done].
    rewrite serve_state. by apply update_item_absent.
  - rewrite DELETE_item_state. by apply delete_item_absent.
Qed.

(** C7. Deleting an existing item answers 204 without body and removes
    the document; from then on, whatever requests follow (as long as none
    of them inserts a document under that same [_id] again), Get, Update
    (with any payload) and Delete on that id answer 404. *)
Theorem delete_then_404 (id : string) (oid : ObjectId) (d : Doc.t)
    (s : mongo) (rs : list request) (b : gmap string json)
    (payload : ItemUpdate.t) :
  object_id_from_str id = Return oid →
  items s !! oid = Some d →
  forallb (λ r, negb (creates oid r)) rs = true →
  ItemUpdate_validate b = Return payload →
  let s1 := (DELETE_item id s).2 in
  let s2 := run rs s1 in
  (DELETE_item id s).1 = Response 204 None ∧
  items s1 = delete oid (items s) ∧
  (GET_item id s2).1 = ErrorResponse 404 "Item not found" ∧
  (PUT_item id b s2).1 = ErrorResponse 404 "Item not found" ∧
  (serve 200 (update_item payload id) s2).1 =
    ErrorResponse 404 "Item not found" ∧
  (DELETE_item id s2).1 = ErrorResponse 404 "Item not found".
Proof.
  intros Hid Hoid Hrs Hb s1 s2.
  assert (items s1 = delete oid (items s)) as Hs1.
  { subst s1. rewrite DELETE_item_state, (delete_item_eq _ _ _ Hid).
    by rewrite Hoid. }
  assert (items s2 !! oid = None) as Hgone.
  { apply run_absent; [done|]. rewrite Hs1. apply lookup_delete_eq. }
  assert ((serve 200 (update_item payload id) s2).1 =
          ErrorResponse 404 "Item not found") as Hupd.
  { unfold serve. rewrite (update_item_eq _ _ _ _ Hid). simpl.
    destruct (decide (build_update_doc payload = ∅)); by rewrite Hgone. }
  split_and!; try done.
  - unfold DELETE_item. rewrite (delete_item_eq _ _ _ Hid). by rewrite Hoid.
  - unfold GET_item, serve. rewrite (get_item_eq _ _ _ Hid). by rewrite Hgone.
  - by rewrite PUT_item_eq, Hb.
  - unfold DELETE_item. rewrite (delete_item_eq _ _ _ Hid). by rewrite Hgone.
Qed.


Lemma delete_then_404_witness :
  let later := [Create 2000 oid2 {["name" := JString "b"]}; List_; Get id1] in
  (DELETE_item id1 store_a).1 = Response 204 None ∧
  (GET_item id1 (run later (DELETE_item id1 store_a).2)).1 =
    ErrorResponse 404 "Item not found".
Proof.
  intros later.
  pose proof (delete_then_404 id1 oid1 doc_a store_a later ∅
                (ItemUpdate.mk None None) eq_refl (lookup_singleton_eq _ _)
                eq_refl eq_refl) as (H204 & _ & Hget & _).
  split; [exact H204 | exact Hget].
Defined.

(** ** Create, then Get *)

Lemma ItemCreate_validate_Return (b : gmap string json) (payload : ItemCreate) :
  ItemCreate_validate b = Return payload → ItemBase.name payload ≠ "".
Proof.
  unfold ItemCreate_validate, validate_str.
  destruct (b !! "name") as [[|n|]|]; try done; simpl.
  destruct n as [|c n]; [done|]; simpl.
  destruct (validate_optional_str (b !! "description")); [|done].
  by intros [= <-].
Qed.

(** What the codec keeps of an instant: the whole milliseconds. *)
Lemma bson_datetime_timestamp (t : datetime) :
  timestamp t - 1000 < timestamp (bson_datetime t) ≤ timestamp t ∧
  (timestamp (bson_datetime t) = timestamp t ↔ timestamp t mod 1000 = 0).
Proof.
  unfold bson_datetime. simpl.
  pose proof (Z.div_mod (timestamp t) 1000 ltac:(lia)) as Hdiv.
  pose proof (Z.mod_pos_bound (timestamp t) 1000 ltac:(lia)) as Hmod.
  lia.
Qed.

(** Counterexample to C4 as stated: an item created when the clock reads
    1500 microseconds is answered with that instant and [tzinfo] UTC;
    Get on the returned id answers the value the store kept, 1000
    microseconds and no [tzinfo]. *)
Lemma create_then_get_other_created_at :
  (POST_items 1500 oid1 {["name" := JString "a"]} empty_mongo).1 =
    Response 201
      (Some (ItemOut.mk id1 "a" None (Datetime 1500 (Some utc)))) ∧
  (GET_item id1
     (POST_items 1500 oid1 {["name" := JString "a"]} empty_mongo).2).1 =
    Response 200 (Some (ItemOut.mk id1 "a" None (Datetime 1000 None))).
Proof. split; vm_compute; reflexivity. Qed.

(** C4, as the code has it. For a body that the creation schema accepts,
    and the ObjectId the driver generates for it (12 bytes, not yet in
    the collection), Create answers 201 with an item that has the [name]
    and [description] of the payload, the string form of the new ObjectId
    as [id], and as [created_at] the time read by the server, aware
    (UTC).  Get on that [id] then answers 200 with an item of the same
    [id], [name] and [description], whose [created_at] is what the store
    kept of that time: the whole milliseconds, without [tzinfo].  So the
    fetched instant is at most the server's and less than a millisecond
    before it, and is the server's exactly when that one has no
    microseconds below the millisecond. *)
Theorem create_then_get (now : Z) (new_id : ObjectId)
    (b : gmap string json) (payload : ItemCreate) (s : mongo) :
  ItemCreate_validate b = Return payload →
  length new_id = 12%nat →
  items s !! new_id = None →
  ∃ out s1 fetched,
    POST_items now new_id b s = (Response 201 (Some out), s1) ∧
    ItemOut.id out = ObjectId_str new_id ∧
    ItemOut.name out = ItemBase.name payload ∧
    ItemOut.description out = ItemBase.description payload ∧
    ItemOut.created_at out = Datetime now (Some utc) ∧
    (GET_item (ItemOut.id out) s1).1 = Response 200 (Some fetched) ∧
    ItemOut.id fetched = ItemOut.id out ∧
    ItemOut.name fetched = ItemOut.name out ∧
    ItemOut.description fetched = ItemOut.description out ∧
    ItemOut.created_at fetched = Datetime (now / 1000 * 1000) None ∧
    now - 1000 < timestamp (ItemOut.created_at fetched) ≤ now ∧
    (timestamp (ItemOut.created_at fetched) = now ↔ now mod 1000 = 0).
Proof.
  intros Hb Hlen Hfresh.
  pose proof (ItemCreate_validate_Return _ _ Hb) as Hname.
  set (doc := Doc.mk (ItemBase.name payload) (ItemBase.description payload)
                (datetime_now_utc now)).
  exists (item_out (new_id, doc)).
  exists (Mongo (<[new_id := bson_document doc]> (items s))
            (calls s ++ [insert_one_call doc]) (tie_order s)).
  exists (item_out (new_id, bson_document doc)).
  pose proof (bson_datetime_timestamp (datetime_now_utc now)) as [Hnear Hsame].
  split_and!; try done.
  - rewrite POST_items_eq, Hb.
    unfold serve, create_item, mbind, M_bind, insert_one, lift; simpl.
    rewrite Hfresh; simpl. fold doc.
    by rewrite (_item_doc_to_out_nonempty (new_id, doc)).
  - unfold GET_item, serve; simpl.
    rewrite (get_item_eq _ new_id)
      by (by apply object_id_from_str_ObjectId_str).
    simpl. rewrite lookup_insert_eq.
    by rewrite (_item_doc_to_out_nonempty (new_id, bson_document doc)).
  - apply Hnear.
  - apply Hnear.
Qed.

Lemma create_then_get_witness :
  ∃ out s1 fetched,
    POST_items 1500 oid1 {["name" := JString "a"]} empty_mongo =
      (Response 201 (Some out), s1) ∧
    ItemOut.name out = "a" ∧ ItemOut.description out = None ∧
    ItemOut.created_at out = Datetime 1500 (Some utc) ∧
    (GET_item (ItemOut.id out) s1).1 = Response 200 (Some fetched) ∧
    ItemOut.name fetched = "a" ∧
    ItemOut.created_at fetched = Datetime 1000 None.
Proof.
  assert (ItemCreate_validate {["name" := JString "a"]} =
          Return (ItemBase.mk "a" None)) as Hb by (vm_compute; reflexivity).
  destruct (create_then_get 1500 oid1 {["name" := JString "a"]}
              (ItemBase.mk "a" None) empty_mongo Hb eq_refl eq_refl)
    as (out & s1 & fetched & Hpost & _ & Hname & Hdescr & Hcreated & Hget
        & _ & Hname' & _ & Hcreated' & _).
  exists out, s1, fetched.
  split_and!; [exact Hpost | exact Hname | exact Hdescr | exact Hcreated
              | exact Hget | by rewrite Hname' | exact Hcreated'].
Defined.

(** ** List *)

#[local] Instance sort_order_transitive (tie : ObjectId → N) :
  Transitive (sort_order tie).
Proof. unfold sort_order. intros x y z [?|[? ?]] [?|[? ?]]; lia. Qed.

#[local] Instance sort_order_total (tie : ObjectId → N) : Total (sort_order tie).
Proof. unfold sort_order. intros x y. lia. Qed.

Lemma sort_order_newer_first (tie : ObjectId → N) (d1 d2 : document) :
  sort_order tie d1 d2 → newer_first d1 d2.
Proof. unfold sort_order, newer_first. lia. Qed.

Lemma list_items_eq (s : mongo) :
  list_items s =
    (mapM _item_doc_to_out
       (take 1000
          (merge_sort (sort_order (tie_order s)) (map_to_list (items s)))),
     log (find_sort_to_list_call "created_at" (-1) 1000) s).
Proof. done. Qed.

Lemma mapM_item_doc_to_out (docs : list document) :
  (∀ doc, doc ∈ docs → Doc.name doc.2 ≠ "") →
  mapM _item_doc_to_out docs = Return (item_out <$> docs).
Proof.
  induction docs as [|doc docs IH]; intros Hdocs; [done|].
  cbn [mapM]. rewrite _item_doc_to_out_nonempty by (apply Hdocs; left).
  cbn. rewrite IH; [done|]. intros doc' ?. apply Hdocs. by right.
Qed.

Lemma sorted_docs_names (s : mongo) (n : nat) (doc : document) :
  names_nonempty s →
  doc ∈ take n
          (merge_sort (sort_order (tie_order s)) (map_to_list (items s))) →
  Doc.name doc.2 ≠ "".
Proof.
  intros Hinv Hdoc%subseteq_take.
  rewrite merge_sort_Permutation in Hdoc.
  destruct doc as [oid d]. apply elem_of_map_to_list in Hdoc.
  by apply (Hinv oid).
Qed.

Lemma not_older_distinct_strict (outs : list ItemOut.t) :
  StronglySorted not_older outs →
  NoDup (created_timestamp <$> outs) →
  StronglySorted strictly_newer outs.
Proof.
  induction 1 as [|x l Hl IH Hx]; intros Hnd; constructor.
  - apply IH. by apply NoDup_cons in Hnd as [_ ?].
  - apply NoDup_cons in Hnd as [Hnotin _].
    apply Forall_forall. intros y Hy.
    rewrite Forall_forall in Hx. specialize (Hx y Hy).
    unfold not_older, strictly_newer in *.
    assert (created_timestamp y ≠ created_timestamp x);
      [|unfold created_timestamp in *; lia].
    intros Heq. apply Hnotin. rewrite <- Heq.
    by apply list_elem_of_fmap_2.
Qed.

(** C6, as the code has it. On a store that satisfies the invariant on
    names, and whatever the order in which the server returns tied
    documents, List answers 200 with the items in the order of
    [sort("created_at", -1)], cut after 1000: the answer holds
    [min 1000 n] of the [n] stored items; together with the items left out
    it is a permutation of the stored items, ordered from newest to
    oldest (no item is followed by a newer one, equal timestamps in any
    order), so the items left out are the oldest; the order is strictly
    descending when the timestamps answered are pairwise distinct; the
    empty store gives the empty list; and List writes nothing. *)
Theorem list_newest_first (s : mongo) :
  names_nonempty s →
  ∃ outs rest,
    GET_items s =
      (Response 200 (Some outs),
       log (find_sort_to_list_call "created_at" (-1) 1000) s) ∧
    length outs = min 1000 (size (items s)) ∧
    outs ++ rest ≡ₚ item_out <$> map_to_list (items s) ∧
    StronglySorted not_older (outs ++ rest) ∧
    (NoDup (created_timestamp <$> outs) → StronglySorted strictly_newer outs) ∧
    (items s = ∅ → outs = []).
Proof.
  intros Hinv.
  set (sorted := merge_sort (sort_order (tie_order s)) (map_to_list (items s))).
  assert (StronglySorted not_older (item_out <$> sorted)) as Hsorted.
  { apply (StronglySorted_fmap item_out (sort_order (tie_order s)) not_older).
    - intros x y Hxy. by apply sort_order_newer_first in Hxy.
    - apply StronglySorted_merge_sort; apply _. }
  assert (length (take 1000 sorted) = min 1000 (size (items s))) as Hlen.
  { rewrite length_take. subst sorted.
    rewrite merge_sort_Permutation.
    by rewrite <- (length_map_to_list (items s)). }
  exists (item_out <$> take 1000 sorted), (item_out <$> drop 1000 sorted).
  rewrite <- fmap_app, take_drop.
  split_and!.
  - unfold GET_items, serve. rewrite list_items_eq. fold sorted.
    rewrite mapM_item_doc_to_out; [done|].
    intros doc Hdoc. by apply (sorted_docs_names s 1000).
  - by rewrite length_fmap.
  - subst sorted. by rewrite merge_sort_Permutation.
  - done.
  - apply not_older_distinct_strict.
    rewrite fmap_take. rewrite <- (take_drop 1000 (item_out <$> sorted)) in Hsorted.
    by apply StronglySorted_app_1_l in Hsorted.
  - intros Hempty. apply nil_length_inv.
    rewrite length_fmap, Hlen, Hempty, map_size_empty. done.
Qed.

Lemma names_nonempty_big_store : names_nonempty big_store.
Proof.
  intros oid d Hoid. unfold big_store in Hoid. cbn [items] in Hoid.
  apply elem_of_list_to_map_2 in Hoid.
  apply list_elem_of_fmap in Hoid as (i & Heq & _).
  injection Heq as -> ->. done.
Qed.

(** The store of 1002 items, created two by two in the same millisecond:
    the answer is cut to 1000 items, the two left out are no newer than
    any item answered, and the answer has items with equal timestamps
    next to each other. *)
Lemma list_newest_first_witness :
  ∃ outs rest,
    GET_items big_store =
      (Response 200 (Some outs),
       log (find_sort_to_list_call "created_at" (-1) 1000) big_store) ∧
    length outs = 1000%nat ∧ length rest = 2%nat ∧
    outs ++ rest ≡ₚ item_out <$> map_to_list (items big_store) ∧
    StronglySorted not_older (outs ++ rest) ∧
    adjacent_tie outs = true.
Proof.
  destruct (list_newest_first big_store names_nonempty_big_store)
    as (outs & rest & Hget & Hlen & Hperm & Hsorted & _).
  assert (size (items big_store) = 1002%nat) as Hsize
    by (vm_compute; reflexivity).
  exists outs, rest. split_and!.
  - exact Hget.
  - rewrite Hlen, Hsize. reflexivity.
  - assert (length (outs ++ rest) = 1002%nat) as Htotal.
    { rewrite Hperm, length_fmap, <- Hsize. apply length_map_to_list. }
    rewrite length_app, Hlen, Hsize in Htotal.
    clear -Htotal. cbn [Nat.min] in Htotal. lia.
  - exact Hperm.
  - exact Hsorted.
  - assert (outs = answered (GET_items big_store).1) as ->
      by (by rewrite Hget).
    vm_compute. reflexivity.
Defined.

(** Counterexample to C6 as stated: the two items created at the same
    instant are both listed, with equal [created_at]; whichever comes
    first, the answer is ordered but not strictly descending. *)
Lemma list_ties_not_strict :
  ∃ x y,
    (GET_items ties_store).1 = Response 200 (Some [x; y]) ∧
    [x; y] ≡ₚ [ItemOut.mk id1 "a" None (Datetime 1000 None);
               ItemOut.mk id2 "b" None (Datetime 1000 None)] ∧
    ItemOut.created_at x = ItemOut.created_at y ∧
    ¬ StronglySorted strictly_newer [x; y].
Proof.
  eexists _, _. split; [vm_compute; reflexivity|].
  split; [done|]. split; [done|].
  intros H. apply StronglySorted_inv in H as [_ H].
  apply Forall_cons in H as [H _]. unfold strictly_newer in H. simpl in H. lia.
Qed.

(** Items created at 1000 < 2000 < 3000 are listed as 3000, 2000, 1000. *)
Example list_three :
  created_timestamp <$>
    answered
      (GET_items (run [Create 2000 oid2 {["name" := JString "b"]};
                       Create 1000 oid1 {["name" := JString "a"]};
                       Create 3000 oid3 {["name" := JString "c"]}]
                    empty_mongo)).1 = [3000; 2000; 1000].
Proof. vm_compute. reflexivity. Qed.

(** The scenario of the specification: create, get, update the
    description, delete, get again. *)
Example scenario :
  let s1 := (POST_items 1000 oid1 {["name" := JString "a"]} empty_mongo).2 in
  let s2 := (PUT_item id1 {["description" := JString "b"]} s1).2 in
  let s3 := (DELETE_item id1 s2).2 in
  (POST_items 1000 oid1 {["name" := JString "a"]} empty_mongo).1 =
    Response 201
      (Some (ItemOut.mk id1 "a" None (Datetime 1000 (Some utc)))) ∧
  (GET_item id1 s1).1 =
    Response 200 (Some (ItemOut.mk id1 "a" None (Datetime 1000 None))) ∧
  (PUT_item id1 {["description" := JString "b"]} s1).1 =
    Response 200 (Some (ItemOut.mk id1 "a" (Some "b") (Datetime 1000 None))) ∧
  (DELETE_item id1 s2).1 = Response 204 None ∧
  (GET_item id1 s3).1 = ErrorResponse 404 "Item not found".
Proof. vm_compute. by split_and!. Qed.

(** ** The invariant on names *)

Lemma create_rejects_empty_name (now : Z) (new_id : ObjectId)
    (b : gmap string json) (s : mongo) :
  b !! "name" = Some (JString "") →
  POST_items now new_id b s = (ErrorResponse 422 "Unprocessable Entity", s).
Proof.
  intros Hb. rewrite POST_items_eq. unfold ItemCreate_validate.
  by rewrite Hb.
Qed.

Lemma create_preserves_names_nonempty (now : Z) (new_id : ObjectId)
    (b : gmap string json) (s : mongo) :
  names_nonempty s → names_nonempty (POST_items now new_id b s).2.
Proof.
  intros Hinv. rewrite POST_items_eq.
  destruct (ItemCreate_validate b) as [payload|e] eqn:Hb; [|done].
  rewrite serve_state.
  unfold create_item, mbind, M_bind, insert_one, lift; simpl.
  destruct (items s !! new_id); simpl; [done|].
  intros oid d. simpl. rewrite lookup_insert.
  case_decide; [|apply Hinv]. intros [= <-]. simpl.
  by apply (ItemCreate_validate_Return b).
Qed.

Lemma update_preserves_names_nonempty (payload : ItemUpdate.t) (id : string)
    (s : mongo) :
  ItemUpdate.name payload ≠ Some "" →
  names_nonempty s → names_nonempty (update_item payload id s).2.
Proof.
  intros Hname Hinv.
  destruct (object_id_from_str_cases id) as [(oid0 & _ & Hid)|[Hid _]].
  - rewrite (update_item_eq _ _ _ _ Hid). simpl.
    destruct (decide (build_update_doc payload = ∅)); simpl; [done|].
    destruct (items s !! oid0) as [d0|] eqn:Hoid0; simpl; [|done].
    intros oid d. simpl. rewrite lookup_insert.
    case_decide; [|apply Hinv]. intros [= <-].
    rewrite apply_set_build_update_doc. simpl.
    destruct (ItemUpdate.name payload) as [new_name|]; simpl.
    + congruence.
    + by apply (Hinv oid0).
  - unfold update_item, mbind, M_bind.
    by rewrite (try_object_id_Raise _ _ Hid).
Qed.

(** C1, at the input where the code breaks it. Create stores the item
    "a"; Update of that item with the body [{"name": ""}] passes the
    schema of [ItemUpdate] (which has no [min_length]), writes the empty
    name into the stored document and only then fails, with 500, when
    [ItemOut] rejects the empty name; afterwards the stored item has an
    empty [name], and Get and List fail with 500 on it.  Create itself
    rejects the same name with 422. *)
Theorem update_stores_empty_name :
  let s0 := run [Create 1000 oid1 {["name" := JString "a"]}] empty_mongo in
  let s1 := run empty_name_requests empty_mongo in
  items s0 !! oid1 = Some (Doc.mk "a" None (Datetime 1000 None)) ∧
  ItemUpdate_validate {["name" := JString ""]} =
    Return (ItemUpdate.mk (Some "") None) ∧
  (PUT_item id1 {["name" := JString ""]} s0).1 =
    ErrorResponse 500 "Internal Server Error" ∧
  items s1 !! oid1 = Some (Doc.mk "" None (Datetime 1000 None)) ∧
  ¬ names_nonempty s1 ∧
  (GET_item id1 s1).1 = ErrorResponse 500 "Internal Server Error" ∧
  (GET_items s1).1 = ErrorResponse 500 "Internal Server Error" ∧
  (POST_items 1000 oid1 {["name" := JString ""]} empty_mongo).1 =
    ErrorResponse 422 "Unprocessable Entity".
Proof.
  intros s0 s1.
  assert (items s1 !! oid1 = Some (Doc.mk "" None (Datetime 1000 None))) as Hs1
    by (vm_compute; reflexivity).
  split_and!; try (vm_compute; reflexivity).
  intros Hinv. by apply (Hinv _ _ Hs1).
Qed.

(** * Further properties of the code *)

(** ** The life cycle of the connection (db.py, main.py) *)

Lemma steps_reads (os : list MongoDB.op) (self : MongoDB.t) :
  forallb is_read os = true → MongoDB.steps os self = self.
Proof.
  revert self. induction os as [|o os IH]; intros self Hos; [done|].
  simpl in Hos. apply andb_prop in Hos as [Ho Hos].
  destruct o; try discriminate; simpl; by apply IH.
Qed.

(** The three ways [init] can go. *)
Lemma init_cases (uri_error : string → option exception)
    (environ : gmap string string) (self : MongoDB.t) :
  let mongodb_uri :=
    default "mongodb://localhost:27017" (environ !! "MONGODB_URI") in
  let db_name := default "app" (environ !! "MONGODB_DB_NAME") in
  let client := MotorClient mongodb_uri in
  (∃ e, uri_error mongodb_uri = Some e ∧
        MongoDB.init uri_error environ self = (Raise e, self)) ∨
  (uri_error mongodb_uri = None ∧
   client_getitem client db_name = Raise InvalidName ∧
   MongoDB.init uri_error environ self =
     (Raise InvalidName, MongoDB.mk (Some client) (MongoDB._db self))) ∨
  (uri_error mongodb_uri = None ∧
   client_getitem client db_name = Return (MotorDatabase client db_name) ∧
   MongoDB.init uri_error environ self =
     (Return tt,
      MongoDB.mk (Some client) (Some (MotorDatabase client db_name)))).
Proof.
  intros mongodb_uri db_name client.
  unfold MongoDB.init, AsyncIOMotorClient_init.
  fold mongodb_uri db_name.
  destruct (uri_error mongodb_uri) as [e|] eqn:Huri; [left; by exists e|].
  right. fold client. unfold client_getitem.
  destruct (bool_decide (db_name = "$external") || _check_name db_name);
    [right | left]; done.
Qed.

Lemma step_handles_kept (self : MongoDB.t) (o : MongoDB.op) :
  is_close o = false →
  is_Some (MongoDB._client self) → is_Some (MongoDB._db self) →
  is_Some (MongoDB._client (MongoDB.step self o)) ∧
  is_Some (MongoDB._db (MongoDB.step self o)).
Proof.
  intros Ho Hc Hd. destruct o as [uri_error environ| | |]; try done.
  cbn [MongoDB.step].
  destruct (init_cases uri_error environ self)
    as [(e & _ & ->)|[(_ & _ & ->)|(_ & _ & ->)]]; simpl; by eauto.
Qed.

Lemma steps_without_close (os : list MongoDB.op) (self : MongoDB.t) :
  forallb (λ o, negb (is_close o)) os = true →
  is_Some (MongoDB._client self) → is_Some (MongoDB._db self) →
  is_Some (MongoDB._client (MongoDB.steps os self)) ∧
  is_Some (MongoDB._db (MongoDB.steps os self)).
Proof.
  revert self.
  induction os as [|o os IH]; intros self Hos Hc Hd; [done|].
  simpl in Hos. apply andb_prop in Hos as [Ho Hos].
  apply negb_true_iff in Ho.
  destruct (step_handles_kept self o Ho Hc Hd) as [Hc' Hd'].
  by apply IH.
Qed.

(** X1. After an [init] that returns, whatever the holder was before
    (fresh, closed or already initialized) and through any later
    operations other than [close] (further calls of [init] included,
    failing or not), [client] returns a client and [db] (and so [get_db])
    a database.  When the properties are only read since, the client is
    the one for [MONGODB_URI] and the database is [MONGODB_DB_NAME] of
    that client, with "mongodb://localhost:27017" and "app" for a
    variable that is not set. *)
Theorem init_then_access (uri_error : string → option exception)
    (environ : gmap string string) (self : MongoDB.t)
    (os : list MongoDB.op) :
  (on_startup uri_error environ self).1 = Return tt →
  forallb (λ o, negb (is_close o)) os = true →
  let mongodb := MongoDB.steps os (on_startup uri_error environ self).2 in
  (∃ c d,
     MongoDB.client mongodb = Return c ∧
     MongoDB.db mongodb = Return d ∧
     get_db mongodb = Return d) ∧
  (forallb is_read os = true →
   let c := MotorClient
              (default "mongodb://localhost:27017" (environ !! "MONGODB_URI")) in
   MongoDB.client mongodb = Return c ∧
   get_db mongodb =
     Return (MotorDatabase c (default "app" (environ !! "MONGODB_DB_NAME")))).
Proof.
  intros Hinit Hos mongodb. unfold on_startup in *.
  destruct (init_cases uri_error environ self)
    as [(e & _ & Heq)|[(_ & _ & Heq)|(_ & _ & Heq)]];
    rewrite Heq in Hinit; try discriminate.
  split.
  - destruct (steps_without_close os (MongoDB.init uri_error environ self).2 Hos)
      as [[c Hc] [d Hd]]; [by rewrite Heq; eauto | by rewrite Heq; eauto |].
    exists c, d. unfold get_db, MongoDB.client, MongoDB.db.
    subst mongodb. by rewrite Hc, Hd.
  - intros Hreads. subst mongodb.
    by rewrite (steps_reads _ _ Hreads), Heq.
Qed.

Lemma init_then_access_witness :
  get_db (MongoDB.steps [MongoDB.Db; MongoDB.Client]
            (on_startup accept_uri ∅
               (MongoDB.close MongoDB.__init__).1.2).2) =
    Return (MotorDatabase (MotorClient "mongodb://localhost:27017") "app").
Proof.
  assert ((on_startup accept_uri ∅ (MongoDB.close MongoDB.__init__).1.2).1 =
          Return tt) as Hup by (vm_compute; reflexivity).
  destruct (init_then_access accept_uri ∅
              (MongoDB.close MongoDB.__init__).1.2
              [MongoDB.Db; MongoDB.Client] Hup eq_refl) as [_ H].
  destruct (H eq_refl) as [_ Hget]. exact Hget.
Defined.

Lemma step_db_needs_client (self : MongoDB.t) (o : MongoDB.op) :
  (is_Some (MongoDB._db self) → is_Some (MongoDB._client self)) →
  is_Some (MongoDB._db (MongoDB.step self o)) →
  is_Some (MongoDB._client (MongoDB.step self o)).
Proof.
  intros Hinv. destruct o as [uri_error environ| | |]; try done.
  - cbn [MongoDB.step].
    destruct (init_cases uri_error environ self)
      as [(e & _ & ->)|[(_ & _ & ->)|(_ & _ & ->)]]; simpl; by eauto.
  - simpl. by intros [? ?].
Qed.

(** X2. [init] goes one of three ways: the connection string is refused
    and the holder stays as it was; the database name is refused with
    InvalidName and the holder has the new client with the [_db] it had
    before; or it returns and the holder has the new client and a
    database of it.  So through every sequence of [init], [close] and
    property reads from construction, [client] succeeds whenever [db]
    does; the converse fails: after an [init] whose database name is
    refused, [client] succeeds and [db] raises. *)
Theorem holder_consistent (os : list MongoDB.op)
    (uri_error : string → option exception)
    (environ : gmap string string) (self : MongoDB.t) :
  let mongodb := MongoDB.steps os MongoDB.__init__ in
  let c := MotorClient
             (default "mongodb://localhost:27017" (environ !! "MONGODB_URI")) in
  let name := default "app" (environ !! "MONGODB_DB_NAME") in
  ((∃ d, MongoDB.db mongodb = Return d) →
   ∃ c, MongoDB.client mongodb = Return c) ∧
  ((∃ e, MongoDB.init uri_error environ self = (Raise e, self)) ∨
   MongoDB.init uri_error environ self =
     (Raise InvalidName, MongoDB.mk (Some c) (MongoDB._db self)) ∨
   MongoDB.init uri_error environ self =
     (Return tt, MongoDB.mk (Some c) (Some (MotorDatabase c name)))) ∧
  (∃ c',
     MongoDB.client
       (MongoDB.steps
          [MongoDB.Init accept_uri {["MONGODB_DB_NAME" := "my.db"]}]
          MongoDB.__init__) = Return c' ∧
     MongoDB.db
       (MongoDB.steps
          [MongoDB.Init accept_uri {["MONGODB_DB_NAME" := "my.db"]}]
          MongoDB.__init__) =
       Raise (RuntimeError
                "MongoDB database is not initialized. Did startup run?")).
Proof.
  intros mongodb c name. split_and!.
  - assert (is_Some (MongoDB._db mongodb) →
            is_Some (MongoDB._client mongodb)) as Hinv.
    { subst mongodb. unfold MongoDB.steps.
      assert (is_Some (MongoDB._db MongoDB.__init__) →
              is_Some (MongoDB._client MongoDB.__init__)) as H0
        by (by intros [? ?]).
      revert H0. generalize MongoDB.__init__.
      induction os as [|o os IH]; intros h Hh; [done|].
      simpl. apply IH. by apply step_db_needs_client. }
    unfold MongoDB.client, MongoDB.db.
    destruct (MongoDB._db mongodb) as [d|]; [|by intros [? ?]].
    destruct (Hinv ltac:(eauto)) as [c0 ->]. eauto.
  - destruct (init_cases uri_error environ self)
      as [(e & _ & Heq)|[(_ & _ & Heq)|(_ & _ & Heq)]]; eauto.
  - eexists. split; vm_compute; reflexivity.
Qed.

(** X3. The health check answers 200 with
    [{"status": "ok", "mongodb": "ok"}] exactly when the holder has a
    database and the ping on it succeeds.  Without a database it fails
    with the RuntimeError of the holder, whatever the server would answer
    (500); when the ping raises, that exception goes through.  So it
    answers 500 after shutdown, and after a startup that raised on a
    holder without database; after a startup that returned it answers 200
    as long as the server answers the ping. *)
Theorem health_check_ok_iff (mongodb : MongoDB.t)
    (command : AsyncIOMotorDatabase → string → outcome unit) :
  (∀ content, health_check mongodb command = Return content ↔
     content = {["status" := "ok"; "mongodb" := "ok"]} ∧
     ∃ db, MongoDB._db mongodb = Some db ∧ command db "ping" = Return tt) ∧
  (MongoDB._db mongodb = None →
   health_check mongodb command =
     Raise (RuntimeError "MongoDB database is not initialized. Did startup run?") ∧
   GET_health mongodb command = ErrorResponse 500 "Internal Server Error") ∧
  (∀ db e, MongoDB._db mongodb = Some db → command db "ping" = Raise e →
           health_check mongodb command = Raise e) ∧
  (∀ self, GET_health (on_shutdown self).1.2 command =
             ErrorResponse 500 "Internal Server Error") ∧
  (∀ uri_error environ self e,
     (on_startup uri_error environ self).1 = Raise e →
     MongoDB._db self = None →
     GET_health (on_startup uri_error environ self).2 command =
       ErrorResponse 500 "Internal Server Error") ∧
  (∀ uri_error environ self,
     (on_startup uri_error environ self).1 = Return tt →
     (∀ db, command db "ping" = Return tt) →
     GET_health (on_startup uri_error environ self).2 command =
       Response 200 (Some {["status" := "ok"; "mongodb" := "ok"]})).
Proof.
  split_and!.
  - intros content. unfold health_check, MongoDB.db, mbind, outcome_bind.
    destruct (MongoDB._db mongodb) as [db|] eqn:Hdb.
    + destruct (command db "ping") as [[]|e] eqn:Hping.
      * split.
        -- intros [= <-]. split; [done|]. by exists db.
        -- by intros [-> _].
      * split; [done|]. intros [_ (db' & [= <-] & Hping')]. congruence.
    + split; [done|]. by intros [_ (db & ? & _)].
  - unfold GET_health, health_check, MongoDB.db. by intros ->.
  - intros db e Hdb Hping.
    unfold health_check, MongoDB.db, mbind, outcome_bind.
    by rewrite Hdb, Hping.
  - done.
  - intros uri_error environ self e. unfold on_startup.
    destruct (init_cases uri_error environ self)
      as [(e' & _ & ->)|[(_ & _ & ->)|(_ & _ & ->)]]; simpl; try done;
      intros _ Hdb; unfold GET_health, health_check, MongoDB.db; simpl;
      by rewrite Hdb.
  - intros uri_error environ self. unfold on_startup.
    destruct (init_cases uri_error environ self)
      as [(e' & _ & ->)|[(_ & _ & ->)|(_ & _ & ->)]]; simpl; try done.
    intros _ Hping.
    unfold GET_health, health_check, MongoDB.db, mbind, outcome_bind. simpl.
    by rewrite Hping.
Qed.





(** ** Identifiers and payload schemas (models.py) *)

(** X5. The [id] of a response identifies the document: the string form
    of a 12-byte ObjectId has 24 characters and [object_id_from_str] reads
    it back as that ObjectId, and two ObjectIds with the same string form
    are equal. *)
Theorem ObjectId_str_roundtrip (oid oid' : ObjectId) :
  length oid = 12%nat →
  String.length (ObjectId_str oid) = 24%nat ∧
  object_id_from_str (ObjectId_str oid) = Return oid ∧
  (ObjectId_str oid = ObjectId_str oid' → oid = oid').
Proof.
  intros Hlen. split_and!.
  - unfold ObjectId_str. rewrite length_hexlify. lia.
  - by apply object_id_from_str_ObjectId_str.
  - unfold ObjectId_str. intros Heq.
    pose proof (bytes_fromhex_hexlify oid) as H1.
    rewrite Heq, bytes_fromhex_hexlify in H1. congruence.
Qed.

Lemma ObjectId_str_roundtrip_witness :
  object_id_from_str (ObjectId_str oid1) = Return oid1.
Proof. apply (ObjectId_str_roundtrip oid1 oid2 eq_refl). Defined.

(** X6. [object_id_from_str] raises nothing but
    [ValueError("Invalid ObjectId")], and what it returns comes from a
    string of 24 characters.  It raises for every string of another
    length and for every string with a character that is neither a hex
    digit nor ASCII whitespace; it returns a 12-byte ObjectId for every
    string of 24 hex digits, in either case of the letters. *)
Theorem object_id_from_str_outcomes (value : string) :
  (object_id_from_str value = Raise (ValueError "Invalid ObjectId") ∨
   ∃ oid, object_id_from_str value = Return oid ∧
          String.length value = 24%nat) ∧
  (String.length value ≠ 24%nat ∨
   Exists (λ c, hex_or_space c = false) (list_ascii_of_string value) →
   object_id_from_str value = Raise (ValueError "Invalid ObjectId")) ∧
  (String.length value = 24%nat →
   Forall (λ c, is_Some (hex_digit_value c)) (list_ascii_of_string value) →
   ∃ oid, object_id_from_str value = Return oid ∧ length oid = 12%nat).
Proof.
  split_and!.
  - unfold object_id_from_str, ObjectId_init.
    case_decide; [|by left].
    destruct (bytes_fromhex value) as [oid|]; [right; by exists oid | by left].
  - intros H. unfold object_id_from_str.
    by rewrite (ObjectId_init_rejects _ H).
  - apply ObjectId_init_hex24.
Qed.

Lemma validate_optional_str_Return (v : option json) (r : option string) :
  validate_optional_str v = Return r ↔
  v ≠ Some JCompound ∧
  r = match v with
      | Some (JString s) => Some s
      | _ => None
      end.
Proof.
  destruct v as [[|s|]|]; simpl; split; try done;
    try (by intros [= <-]); try (by intros [_ ->]); by intros [? _].
Qed.

(** X7. The creation schema accepts a body exactly when its [name] is a
    non-empty string and its [description] is absent, null or a string;
    the payload then carries that name, and that description or [None].
    For every other body Create answers 422, stores nothing and makes no
    call on the collection. *)
Theorem create_body_validation (now : Z) (new_id : ObjectId)
    (b : gmap string json) (s : mongo) :
  (∀ payload,
     ItemCreate_validate b = Return payload ↔
     ItemBase.name payload ≠ "" ∧
     b !! "name" = Some (JString (ItemBase.name payload)) ∧
     b !! "description" ≠ Some JCompound ∧
     ItemBase.description payload =
       match b !! "description" with
       | Some (JString d) => Some d
       | _ => None
       end) ∧
  ((∀ payload, ItemCreate_validate b ≠ Return payload) →
   POST_items now new_id b s =
     (ErrorResponse 422 "Unprocessable Entity", s)).
Proof.
  split.
  - intros [n d]. unfold ItemCreate_validate, validate_str. simpl.
    destruct (b !! "name") as [[|n'|]|]; simpl;
      try (split; [done | by intros (_ & ? & _)]).
    destruct n' as [|c n']; simpl.
    { split; [done|]. by intros (Hn & [= <-] & _). }
    unfold mbind, outcome_bind.
    destruct (validate_optional_str (b !! "description")) as [r|e] eqn:Hd.
    + apply validate_optional_str_Return in Hd as [Hd ->]. split.
      * by intros [= <- <-].
      * by intros (_ & [= <-] & _ & ->).
    + split; [done|]. intros (_ & _ & Hd' & Hr).
      assert (validate_optional_str (b !! "description") = Return d) as Hok
        by (by apply validate_optional_str_Return).
      congruence.
  - intros Hb. rewrite POST_items_eq.
    destruct (ItemCreate_validate b) as [payload|e]; [|done].
    by destruct (Hb payload).
Qed.

(** X8. The update schema accepts a body exactly when each of [name] and
    [description] is absent, null or a string, the empty string
    included; so it accepts every body that the creation schema accepts,
    with the same name and description, and a body it refuses is answered
    422 with the database untouched. *)
Theorem update_body_validation (id : string) (b : gmap string json)
    (s : mongo) :
  (∀ payload,
     ItemUpdate_validate b = Return payload ↔
     b !! "name" ≠ Some JCompound ∧
     b !! "description" ≠ Some JCompound ∧
     ItemUpdate.name payload =
       match b !! "name" with
       | Some (JString n) => Some n
       | _ => None
       end ∧
     ItemUpdate.description payload =
       match b !! "description" with
       | Some (JString d) => Some d
       | _ => None
       end) ∧
  (∀ created,
     ItemCreate_validate b = Return created →
     ItemUpdate_validate b =
       Return (ItemUpdate.mk (Some (ItemBase.name created))
                 (ItemBase.description created))) ∧
  ((∀ payload, ItemUpdate_validate b ≠ Return payload) →
   PUT_item id b s = (ErrorResponse 422 "Unprocessable Entity", s)).
Proof.
  assert (∀ payload,
     ItemUpdate_validate b = Return payload ↔
     b !! "name" ≠ Some JCompound ∧
     b !! "description" ≠ Some JCompound ∧
     ItemUpdate.name payload =
       match b !! "name" with
       | Some (JString n) => Some n
       | _ => None
       end ∧
     ItemUpdate.description payload =
       match b !! "description" with
       | Some (JString d) => Some d
       | _ => None
       end) as Hiff.
  { intros [n d]. unfold ItemUpdate_validate, mbind, outcome_bind. simpl.
    destruct (validate_optional_str (b !! "name")) as [rn|e] eqn:Hn.
    - apply validate_optional_str_Return in Hn as [Hn ->].
      destruct (validate_optional_str (b !! "description")) as [rd|e] eqn:Hd.
      + apply validate_optional_str_Return in Hd as [Hd ->]. split.
        * by intros [= <- <-].
        * by intros (_ & _ & -> & ->).
      + split; [done|]. intros (_ & Hd' & _ & Hr).
        assert (validate_optional_str (b !! "description") = Return d) as Hok
          by (by apply validate_optional_str_Return).
        congruence.
    - split; [done|]. intros (Hn' & _ & Hr & _).
      assert (validate_optional_str (b !! "name") = Return n) as Hok
        by (by apply validate_optional_str_Return).
      congruence. }
  split_and!.
  - exact Hiff.
  - intros [n d] Hc. apply Hiff. simpl.
    revert Hc. unfold ItemCreate_validate, validate_str, mbind, outcome_bind.
    destruct (b !! "name") as [[|n'|]|]; simpl; try done.
    destruct (String.length n' <? 1)%nat; [done|].
    destruct (validate_optional_str (b !! "description")) as [r|e] eqn:Hd;
      [|done].
    apply validate_optional_str_Return in Hd as [Hd ->].
    by intros [= <- <-].
  - intros Hb. rewrite PUT_item_eq.
    destruct (ItemUpdate_validate b) as [payload|e]; [|done].
    by destruct (Hb payload).
Qed.

(** ** The handlers (routes/items.py) *)

Lemma _item_doc_to_out_cases (doc : document) :
  (Doc.name doc.2 ≠ "" ∧ _item_doc_to_out doc = Return (item_out doc)) ∨
  (Doc.name doc.2 = "" ∧ _item_doc_to_out doc = Raise ValidationError).
Proof.
  destruct (decide (Doc.name doc.2 = "")) as [He|Hne].
  - right. split; [done|]. by apply _item_doc_to_out_empty.
  - left. split; [done|]. by apply _item_doc_to_out_nonempty.
Qed.

(** X9. Create never touches a document that is already stored, whatever
    it answers.  When it answers 201, the [_id] generated by the driver
    was free, the collection has exactly one document more, stored under
    that [_id] with the name and description of the payload and, as
    [created_at], the whole milliseconds of the time read by the server,
    without [tzinfo]; the one call made is [insert_one], with the
    document that carries that time in full. *)
Theorem create_adds_one (now : Z) (new_id : ObjectId)
    (b : gmap string json) (s : mongo) :
  let r := POST_items now new_id b s in
  (∀ oid d, items s !! oid = Some d → items r.2 !! oid = Some d) ∧
  (status r.1 = 201 →
   ∃ payload,
     ItemCreate_validate b = Return payload ∧
     items s !! new_id = None ∧
     items r.2 =
       <[new_id := Doc.mk (ItemBase.name payload)
                     (ItemBase.description payload)
                     (Datetime (now / 1000 * 1000) None)]> (items s) ∧
     size (items r.2) = S (size (items s)) ∧
     calls r.2 =
       calls s ++ [insert_one_call
                     (Doc.mk (ItemBase.name payload)
                        (ItemBase.description payload)
                        (Datetime now (Some utc)))]).
Proof.
  intros r. subst r. rewrite POST_items_eq.
  destruct (ItemCreate_validate b) as [payload|e] eqn:Hb; [|done].
  unfold serve, create_item, mbind, M_bind, insert_one, lift; simpl.
  destruct (items s !! new_id) as [d0|] eqn:Hnew; simpl; [done|].
  rewrite (_item_doc_to_out_nonempty (new_id, _))
    by (by apply (ItemCreate_validate_Return b)).
  simpl. split.
  - intros oid d Hoid. rewrite lookup_insert_ne; [done|]. congruence.
  - intros _. exists payload. split_and!; try done.
    by apply map_size_insert_None.
Qed.

Lemma items_POST_items (now : Z) (new_id : ObjectId)
    (b : gmap string json) (s : mongo) :
  status (POST_items now new_id b s).1 ≠ 201 →
  items (POST_items now new_id b s).2 = items s.
Proof.
  rewrite POST_items_eq.
  destruct (ItemCreate_validate b) as [payload|e] eqn:Hb; [|done].
  unfold serve, create_item, mbind, M_bind, insert_one, lift; simpl.
  destruct (items s !! new_id) as [d0|] eqn:Hnew; simpl; [done|].
  rewrite (_item_doc_to_out_nonempty (new_id, _))
    by (by apply (ItemCreate_validate_Return b)).
  done.
Qed.

Lemma items_update_item_failed (payload : ItemUpdate.t) (id : string)
    (s : mongo) :
  status (serve 200 (update_item payload id) s).1 = 404 ∨
  status (serve 200 (update_item payload id) s).1 = 422 →
  items (update_item payload id s).2 = items s.
Proof.
  destruct (object_id_from_str_cases id) as [(oid & _ & Hid)|[Hid _]].
  - unfold serve. rewrite (update_item_eq _ _ _ _ Hid). simpl.
    destruct (decide (build_update_doc payload = ∅)); simpl; [done|].
    destruct (items s !! oid) as [d|] eqn:Hoid; simpl; [|done].
    destruct (_item_doc_to_out_cases (oid, apply_set (build_update_doc payload) d))
      as [[_ ->]|[_ ->]]; simpl; by intros [|].
  - intros _. unfold update_item, mbind, M_bind.
    by rewrite (try_object_id_Raise _ _ Hid).
Qed.

Lemma items_DELETE_item (id : string) (s : mongo) :
  status (DELETE_item id s).1 ≠ 204 →
  items (DELETE_item id s).2 = items s.
Proof.
  unfold DELETE_item.
  destruct (object_id_from_str_cases id) as [(oid & _ & Hid)|[Hid _]].
  - rewrite (delete_item_eq _ _ _ Hid).
    by destruct (items s !! oid).
  - intros _. unfold delete_item, mbind, M_bind.
    by rewrite (try_object_id_Raise _ _ Hid).
Qed.

(** X10. The documents change only when a write succeeds or an Update
    gets past the lookup: Get and List never change them, a Create
    changes them only when it answers 201, a Delete only when it answers
    204, and an Update answered 404 or 422 leaves them as they were. *)
Theorem writes_only_on_success (r : request) (s : mongo) :
  match r with
  | List_ | Get _ => items (handle s r) = items s
  | Create _ _ _ => answer_status r s ≠ 201 → items (handle s r) = items s
  | Delete _ => answer_status r s ≠ 204 → items (handle s r) = items s
  | Update _ _ =>
      answer_status r s = 404 ∨ answer_status r s = 422 →
      items (handle s r) = items s
  end.
Proof.
  destruct r as [now new_id b| |id|id b|id]; cbn [handle answer_status].
  - apply items_POST_items.
  - unfold GET_items. by rewrite serve_state.
  - unfold GET_item. by rewrite serve_state, get_item_items.
  - rewrite PUT_item_eq.
    destruct (ItemUpdate_validate b) as [payload|e]; [|done].
    rewrite serve_state. apply items_update_item_failed.
  - apply items_DELETE_item.
Qed.

(** X11. When Update answers 200, the item it returns is the document as
    now stored: it has the name of the payload when the payload has one
    and the name stored before otherwise, the same for the description,
    and the [created_at] stored before; and a Get on the same id right
    after answers 200 with that same item. *)
Theorem update_then_get (id : string) (oid : ObjectId) (b : gmap string json)
    (payload : ItemUpdate.t) (s : mongo) (out : ItemOut.t) :
  object_id_from_str id = Return oid →
  ItemUpdate_validate b = Return payload →
  (PUT_item id b s).1 = Response 200 (Some out) →
  let s' := (PUT_item id b s).2 in
  ∃ d d',
    items s !! oid = Some d ∧ items s' !! oid = Some d' ∧
    out = item_out (oid, d') ∧
    Doc.name d' = default (Doc.name d) (ItemUpdate.name payload) ∧
    Doc.description d' =
      match ItemUpdate.description payload with
      | Some v => Some v
      | None => Doc.description d
      end ∧
    Doc.created_at d' = Doc.created_at d ∧
    (GET_item id s').1 = Response 200 (Some out).
Proof.
  intros Hid Hb Hput s'. subst s'. revert Hput.
  rewrite PUT_item_eq, Hb. unfold serve, GET_item.
  rewrite (update_item_eq _ _ _ _ Hid). simpl.
  destruct (decide (build_update_doc payload = ∅)) as [He|He]; simpl.
  - apply build_update_doc_empty in He as [Hn Hd].
    destruct (items s !! oid) as [d|] eqn:Hoid; simpl; [|done].
    destruct (_item_doc_to_out_cases (oid, d)) as [[Hname Hout]|[_ Hout]];
      rewrite Hout; [|done].
    intros [= <-]. simpl. exists d, d. rewrite Hn, Hd. split_and!; try done.
    unfold serve. rewrite (get_item_eq _ _ _ Hid). simpl.
    by rewrite Hoid, Hout.
  - destruct (items s !! oid) as [d|] eqn:Hoid; simpl; [|done].
    set (d' := apply_set (build_update_doc payload) d).
    destruct (_item_doc_to_out_cases (oid, d')) as [[Hname Hout]|[_ Hout]];
      rewrite Hout; [|done].
    intros [= <-]. simpl. exists d, d'.
    assert (d' = apply_set (build_update_doc payload) d) as Hd' by done.
    rewrite apply_set_build_update_doc in Hd'.
    split_and!; try done; try (by rewrite Hd').
    + by rewrite lookup_insert_eq.
    + unfold serve. rewrite (get_item_eq _ _ _ Hid). simpl.
      by rewrite lookup_insert_eq, Hout.
Qed.

Lemma update_then_get_witness :
  ∃ d',
    items (PUT_item id1 {["name" := JString "b"]} store_a).2 !! oid1 =
      Some d' ∧
    Doc.name d' = "b" ∧ Doc.description d' = Some "first" ∧
    (GET_item id1 (PUT_item id1 {["name" := JString "b"]} store_a).2).1 =
      Response 200 (Some (ItemOut.mk id1 "b" (Some "first") (Datetime 1000 None))).
Proof.
  assert (ItemUpdate_validate {["name" := JString "b"]} =
          Return (ItemUpdate.mk (Some "b") None)) as Hb
    by (vm_compute; reflexivity).
  assert ((PUT_item id1 {["name" := JString "b"]} store_a).1 =
          Response 200 (Some (ItemOut.mk id1 "b" (Some "first") (Datetime 1000 None)))) as Hput
    by (vm_compute; reflexivity).
  destruct (update_then_get id1 oid1 {["name" := JString "b"]}
              (ItemUpdate.mk (Some "b") None) store_a _ eq_refl Hb Hput)
    as (d & d' & Hd & Hd' & _ & Hname & Hdescr & _ & Hget).
  exists d'. split_and!; [exact Hd' | exact Hname | | exact Hget].
  rewrite Hdescr. simpl.
  assert (Some d = Some doc_a) as [= ->]
    by (rewrite <- Hd; apply lookup_singleton_eq).
  reflexivity.
Defined.

Lemma apply_set_idemp (update_doc : gmap string string) (d : Doc.t) :
  apply_set update_doc (apply_set update_doc d) = apply_set update_doc d.
Proof.
  unfold apply_set. simpl.
  by destruct (update_doc !! "name"), (update_doc !! "description").
Qed.

(** X12. Update is idempotent: sending the same Update a second time
    leaves the documents as the first left them and gets the same
    answer. *)
Theorem update_idempotent (id : string) (b : gmap string json) (s : mongo) :
  let s1 := (PUT_item id b s).2 in
  items (PUT_item id b s1).2 = items s1 ∧
  (PUT_item id b s1).1 = (PUT_item id b s).1.
Proof.
  intros s1. subst s1. rewrite !PUT_item_eq.
  destruct (ItemUpdate_validate b) as [payload|e]; [|done].
  unfold serve.
  destruct (object_id_from_str_cases id) as [(oid & _ & Hid)|[Hid _]].
  - rewrite !(update_item_eq _ _ _ _ Hid). simpl.
    destruct (decide (build_update_doc payload = ∅)) as [He|He]; simpl.
    + destruct (items s !! oid) as [d|] eqn:Hoid.
      * destruct (_item_doc_to_out (oid, d)) eqn:Hout; simpl;
          by rewrite Hoid, Hout.
      * simpl. by rewrite Hoid.
    + destruct (items s !! oid) as [d|] eqn:Hoid; simpl.
      * set (d' := apply_set (build_update_doc payload) d).
        assert (apply_set (build_update_doc payload) d' = d') as Hd'
          by apply apply_set_idemp.
        destruct (_item_doc_to_out (oid, d')) eqn:Hout; simpl;
          rewrite lookup_insert_eq; simpl; fold d';
          rewrite Hd', Hout; simpl; by rewrite insert_insert_eq.
      * by rewrite Hoid.
  - unfold update_item, mbind, M_bind.
    rewrite !(try_object_id_Raise _ _ Hid). simpl.
    by rewrite ?(try_object_id_Raise _ _ Hid).
Qed.

(** X13. For a valid id, Delete answers 204 exactly when a document has
    that [_id] and 404 exactly when none has; it removes that document
    and nothing else, so the collection loses exactly one document on 204
    and every other document stays as it was. *)
Theorem delete_removes_one (id : string) (oid : ObjectId) (s : mongo) :
  object_id_from_str id = Return oid →
  let r := DELETE_item id s in
  items r.2 = delete oid (items s) ∧
  (r.1 = Response 204 None ↔ is_Some (items s !! oid)) ∧
  (r.1 = ErrorResponse 404 "Item not found" ↔ items s !! oid = None) ∧
  (∀ oid', oid' ≠ oid → items r.2 !! oid' = items s !! oid') ∧
  (is_Some (items s !! oid) → S (size (items r.2)) = size (items s)).
Proof.
  intros Hid r. subst r. unfold DELETE_item.
  rewrite (delete_item_eq _ _ _ Hid).
  destruct (items s !! oid) as [d|] eqn:Hoid; simpl.
  - split_and!.
    + done.
    + split; [by eauto | done].
    + done.
    + intros oid' Hne. by rewrite lookup_delete_ne.
    + intros _.
      assert (is_Some (items s !! oid)) as Hsome by (by rewrite Hoid).
      rewrite (map_size_delete_Some _ _ Hsome).
      pose proof (map_size_ne_0_lookup_2 _ _ Hsome). lia.
  - rewrite delete_id by done. split_and!.
    + done.
    + split; [done | by intros [? ?]].
    + done.
    + done.
    + by intros [? ?].
Qed.

Lemma delete_removes_one_witness :
  (DELETE_item id1 store_a).1 = Response 204 None ∧
  items (DELETE_item id1 store_a).2 = delete oid1 (items store_a).
Proof.
  destruct (delete_removes_one id1 oid1 store_a eq_refl)
    as (Hitems & H204 & _).
  split; [|exact Hitems].
  apply H204. exists doc_a. apply lookup_singleton_eq.
Defined.

Lemma PUT_item_names_nonempty (id : string) (b : gmap string json)
    (s : mongo) :
  sets_empty_name (Update id b) = false →
  names_nonempty s → names_nonempty (PUT_item id b s).2.
Proof.
  intros Hb Hinv. rewrite PUT_item_eq.
  destruct (ItemUpdate_validate b) as [payload|e] eqn:Hval; [|done].
  rewrite serve_state. apply update_preserves_names_nonempty; [|done].
  revert Hval. unfold ItemUpdate_validate, mbind, outcome_bind.
  destruct (validate_optional_str (b !! "name")) as [rn|] eqn:Hn; [|done].
  destruct (validate_optional_str (b !! "description")); [|done].
  intros [= <-]. simpl.
  apply validate_optional_str_Return in Hn as [_ ->].
  simpl in Hb. destruct (b !! "name") as [[|[|c n]|]|]; try done.
Qed.

Lemma DELETE_item_names_nonempty (id : string) (s : mongo) :
  names_nonempty s → names_nonempty (DELETE_item id s).2.
Proof.
  intros Hinv. rewrite DELETE_item_state.
  destruct (object_id_from_str_cases id) as [(oid & _ & Hid)|[Hid _]].
  - rewrite (delete_item_eq _ _ _ Hid).
    destruct (items s !! oid); simpl; [|done].
    intros oid' d'. simpl. intros [_ ?]%lookup_delete_Some. by apply (Hinv oid').
  - unfold delete_item, mbind, M_bind.
    by rewrite (try_object_id_Raise _ _ Hid).
Qed.

(** X14. The invariant on names is kept by every request except an
    Update that gives the empty string as name: starting from a store
    where every name is non-empty, after any sequence of requests without
    such an Update every stored name is non-empty, and List answers
    200. *)
Theorem names_nonempty_run (rs : list request) (s : mongo) :
  names_nonempty s →
  forallb (λ r, negb (sets_empty_name r)) rs = true →
  names_nonempty (run rs s) ∧
  ∃ outs, (GET_items (run rs s)).1 = Response 200 (Some outs).
Proof.
  intros Hinv Hrs.
  assert (names_nonempty (run rs s)) as Hrun.
  { unfold run. revert s Hinv.
    induction rs as [|r rs IH]; intros s Hinv; [done|].
    simpl in Hrs. apply andb_prop in Hrs as [Hr Hrs].
    cbn [foldl]. apply IH; [done|].
    destruct r as [now new_id b| |id|id b|id]; cbn [handle].
    - by apply create_preserves_names_nonempty.
    - unfold GET_items. rewrite serve_state. exact Hinv.
    - unfold GET_item. rewrite serve_state.
      intros oid d. rewrite get_item_items. apply Hinv.
    - apply PUT_item_names_nonempty; [|done]. by apply negb_true_iff.
    - by apply DELETE_item_names_nonempty. }
  split; [done|].
  exists (item_out <$>
            take 1000
              (merge_sort (sort_order (tie_order (run rs s)))
                 (map_to_list (items (run rs s))))).
  unfold GET_items, serve. rewrite list_items_eq.
  rewrite mapM_item_doc_to_out; [done|].
  intros doc Hdoc. by apply (sorted_docs_names (run rs s) 1000).
Qed.

Lemma names_nonempty_empty_mongo : names_nonempty empty_mongo.
Proof. intros oid d. unfold empty_mongo. simpl. by rewrite lookup_empty. Qed.

Lemma names_nonempty_run_witness :
  names_nonempty
    (run [Create 1000 oid1 {["name" := JString "a"]};
          Update id1 {["description" := JString "b"]};
          Delete id2] empty_mongo).
Proof.
  apply (names_nonempty_run
           [Create 1000 oid1 {["name" := JString "a"]};
            Update id1 {["description" := JString "b"]};
            Delete id2] empty_mongo names_nonempty_empty_mongo).
  vm_compute. reflexivity.
Defined.

Lemma mapM_item_doc_to_out_Raise (docs : list document) (doc : document) :
  doc ∈ docs → Doc.name doc.2 = "" →
  mapM _item_doc_to_out docs = Raise ValidationError.
Proof.
  intros Hdoc Hname.
  induction docs as [|doc0 docs IH]; [by apply elem_of_nil in Hdoc|].
  apply elem_of_cons in Hdoc as [<-|Hdoc]; cbn [mapM].
  - by rewrite _item_doc_to_out_empty.
  - destruct (_item_doc_to_out_cases doc0) as [[_ ->]|[_ ->]]; [|done].
    cbn. by rewrite IH.
Qed.

(** X15. One stored item with an empty name is enough to break the
    reads: Get on its id answers 500, and so does List as long as the
    item is among the documents it fetches (always, when the collection
    holds at most 1000). *)
Theorem empty_name_breaks_reads (s : mongo) (oid : ObjectId) (d : Doc.t)
    (id : string) :
  items s !! oid = Some d → Doc.name d = "" →
  (object_id_from_str id = Return oid →
   (GET_item id s).1 = ErrorResponse 500 "Internal Server Error") ∧
  ((size (items s) ≤ 1000)%nat →
   (GET_items s).1 = ErrorResponse 500 "Internal Server Error").
Proof.
  intros Hoid Hname. split.
  - intros Hid. unfold GET_item, serve. rewrite (get_item_eq _ _ _ Hid).
    by rewrite Hoid, (_item_doc_to_out_empty (oid, d)).
  - intros Hsize. unfold GET_items, serve. rewrite list_items_eq.
    rewrite (mapM_item_doc_to_out_Raise _ (oid, d)); [done| |done].
    rewrite take_ge.
    + rewrite merge_sort_Permutation. by apply elem_of_map_to_list.
    + rewrite merge_sort_Permutation.
      by rewrite <- (length_map_to_list (items s)) in Hsize.
Qed.

Lemma empty_name_breaks_reads_witness :
  (GET_item id2 store_bad).1 = ErrorResponse 500 "Internal Server Error" ∧
  (GET_items store_bad).1 = ErrorResponse 500 "Internal Server Error".
Proof.
  assert (items store_bad !! oid2 = Some (Doc.mk "" None (Datetime 2000 None))) as Hoid
    by (vm_compute; reflexivity).
  destruct (empty_name_breaks_reads store_bad oid2 _ id2 Hoid eq_refl)
    as [Hget Hlist].
  split; [apply Hget; reflexivity | apply Hlist].
  assert (size (items store_bad) = 2%nat) as -> by (vm_compute; reflexivity).
  lia.
Defined.

Lemma mapM_item_doc_to_out_Return (docs : list document)
    (outs : list ItemOut.t) :
  mapM _item_doc_to_out docs = Return outs → outs = item_out <$> docs.
Proof.
  revert outs. induction docs as [|doc docs IH]; intros outs.
  { by intros [= <-]. }
  cbn [mapM].
  destruct (_item_doc_to_out_cases doc) as [[_ ->]|[_ ->]]; [|done].
  cbn. destruct (mapM _item_doc_to_out docs) as [outs'|e]; [|done].
  cbn. intros [= <-]. by rewrite (IH outs').
Qed.

#[local] Instance ObjectId_str_inj : Inj (=) (=) ObjectId_str.
Proof.
  intros oid oid' Heq. unfold ObjectId_str in Heq.
  pose proof (bytes_fromhex_hexlify oid) as H.
  rewrite Heq, bytes_fromhex_hexlify in H. congruence.
Qed.

(** X16. When List answers 200, every item of the answer mirrors a
    stored document, no two items of the answer have the same [id], and
    when the collection holds at most 1000 documents every one of them
    is in the answer. *)
Theorem list_ids_distinct (s : mongo) (outs : list ItemOut.t) :
  (GET_items s).1 = Response 200 (Some outs) →
  NoDup (ItemOut.id <$> outs) ∧
  (∀ out, out ∈ outs →
     ∃ oid d, items s !! oid = Some d ∧ out = item_out (oid, d)) ∧
  ((size (items s) ≤ 1000)%nat →
   ∀ oid d, items s !! oid = Some d → item_out (oid, d) ∈ outs).
Proof.
  unfold GET_items, serve. rewrite list_items_eq.
  set (sorted := merge_sort (sort_order (tie_order s)) (map_to_list (items s))).
  destruct (mapM _item_doc_to_out (take 1000 sorted)) as [outs'|e] eqn:Hout;
    [|by destruct e].
  apply mapM_item_doc_to_out_Return in Hout as ->.
  intros [= <-]. split_and!.
  - rewrite <- list_fmap_compose.
    assert (ItemOut.id ∘ item_out = ObjectId_str ∘ fst) as -> by done.
    rewrite list_fmap_compose. apply (NoDup_fmap_2 _).
    rewrite fmap_take.
    apply (sublist_NoDup _ (fst <$> sorted)); [|apply sublist_take].
    subst sorted. rewrite merge_sort_Permutation.
    apply NoDup_fst_map_to_list.
  - intros out (doc & -> & Hdoc)%list_elem_of_fmap.
    apply subseteq_take in Hdoc. subst sorted.
    rewrite merge_sort_Permutation in Hdoc.
    destruct doc as [oid d]. exists oid, d.
    split; [by apply elem_of_map_to_list | done].
  - intros Hsize oid d Hoid.
    apply list_elem_of_fmap_2. rewrite take_ge.
    + subst sorted. rewrite merge_sort_Permutation.
      by apply elem_of_map_to_list.
    + subst sorted. rewrite merge_sort_Permutation.
      by rewrite <- (length_map_to_list (items s)) in Hsize.
Qed.

Lemma list_ids_distinct_witness :
  NoDup (ItemOut.id <$>
           [ItemOut.mk id1 "a" None (Datetime 1000 None);
            ItemOut.mk id2 "b" None (Datetime 1000 None)]).
Proof.
  apply (list_ids_distinct ties_store).
  vm_compute. reflexivity.
Defined.

(** X17. Creating an item and deleting it by the returned id gives the
    documents back as they were: for a body the schema accepts and a free
    12-byte [_id], Delete on the [id] of the created item answers 204 and
    the collection is then the one before the Create. *)
Theorem create_then_delete (now : Z) (new_id : ObjectId)
    (b : gmap string json) (payload : ItemCreate) (s : mongo) :
  ItemCreate_validate b = Return payload →
  length new_id = 12%nat →
  items s !! new_id = None →
  ∃ out s1,
    POST_items now new_id b s = (Response 201 (Some out), s1) ∧
    (DELETE_item (ItemOut.id out) s1).1 = Response 204 None ∧
    items (DELETE_item (ItemOut.id out) s1).2 = items s.
Proof.
  intros Hb Hlen Hfresh.
  pose proof (ItemCreate_validate_Return _ _ Hb) as Hname.
  set (doc := Doc.mk (ItemBase.name payload) (ItemBase.description payload)
                (datetime_now_utc now)).
  exists (item_out (new_id, doc)).
  exists (Mongo (<[new_id := bson_document doc]> (items s))
            (calls s ++ [insert_one_call doc]) (tie_order s)).
  assert (POST_items now new_id b s =
          (Response 201 (Some (item_out (new_id, doc))),
           Mongo (<[new_id := bson_document doc]> (items s))
             (calls s ++ [insert_one_call doc]) (tie_order s))) as Hpost.
  { rewrite POST_items_eq, Hb.
    unfold serve, create_item, mbind, M_bind, insert_one, lift; simpl.
    rewrite Hfresh; simpl. fold doc.
    by rewrite (_item_doc_to_out_nonempty (new_id, doc)). }
  split; [done|].
  unfold DELETE_item. simpl.
  rewrite (delete_item_eq _ new_id)
    by (by apply object_id_from_str_ObjectId_str).
  simpl. rewrite lookup_insert_eq. simpl.
  split; [done|]. by rewrite delete_insert_id.
Qed.

Lemma create_then_delete_witness :
  ∃ out s1,
    POST_items 2000 oid2 {["name" := JString "b"]} store_a =
      (Response 201 (Some out), s1) ∧
    items (DELETE_item (ItemOut.id out) s1).2 = items store_a.
Proof.
  assert (ItemCreate_validate {["name" := JString "b"]} =
          Return (ItemBase.mk "b" None)) as Hb by (vm_compute; reflexivity).
  assert (items store_a !! oid2 = None) as Hfresh by (vm_compute; reflexivity).
  destruct (create_then_delete 2000 oid2 {["name" := JString "b"]}
              (ItemBase.mk "b" None) store_a Hb eq_refl Hfresh)
    as (out & s1 & Hpost & _ & Hitems).
  exists out, s1. split; [exact Hpost | exact Hitems].
Defined.

(** The hooks and the two health routes over a life of the application:
    no database before startup, a healthy answer after it, none again
    after shutdown; the root route answers the same throughout. *)
Example health_over_the_life_cycle :
  let mongodb0 := MongoDB.__init__ in
  let mongodb1 := (on_startup accept_uri ∅ mongodb0).2 in
  let mongodb2 := (on_shutdown mongodb1).1.2 in
  (on_startup accept_uri ∅ mongodb0).1 = Return tt ∧
  on_startup refuse_uri ∅ mongodb0 = (Raise InvalidURI, mongodb0) ∧
  GET_health mongodb0 reachable = ErrorResponse 500 "Internal Server Error" ∧
  GET_health mongodb1 reachable =
    Response 200 (Some {["status" := "ok"; "mongodb" := "ok"]}) ∧
  (on_shutdown mongodb1).2 = [MotorClient "mongodb://localhost:27017"] ∧
  GET_health mongodb2 reachable = ErrorResponse 500 "Internal Server Error" ∧
  GET_root = Response 200 (Some {["message" := "Healthy"]}).
Proof. split_and!; vm_compute; reflexivity. Qed.
